(** * setup.py of intervaltree: version resolution and long-description pipeline

    A shallow embedding of the logic of [setup.py]: the development version
    number derived from [git describe], the three-tier choice of the long
    description ([get_rst]), the Markdown sanitizers ([chop_markdown_header],
    [remove_markdown_links]) and the RST assembly.

    The module declares Python 2 and Python 3 (line 2 and the classifiers
    of lines 204-210), and the two differ where the module handles text: the
    [str] of Python 2 and the [bytes] of Python 3 are byte strings, the [str]
    of Python 3 is a text string.  Both are modelled by Rocq's [string], with
    characters below 256, and the string methods take the [kind] of string
    they are called on; the [world] says which interpreter runs the module.
    Exceptions are values of [exn]; code that touches the operating system
    runs in a state-and-exception monad over a [world]. *)

From Stdlib Require Import String Ascii List Bool Arith Lia.
Import ListNotations.
Open Scope string_scope.

Set Implicit Arguments.

(** ** Strings *)

Module Str.

(** Membership of a character. *)
Fixpoint mem (c : ascii) (s : string) : bool :=
  match s with
  | "" => false
  | String d s' => Ascii.eqb d c || mem c s'
  end.

(** [suffix t s]: [t] is [s[i:]] for some position [i]. *)
Inductive suffix (t : string) : string -> Prop :=
| suffix_here : suffix t t
| suffix_next c s : suffix t s -> suffix t (String c s).

(** The first character of [s] is [b]. *)
Definition starts_with (b : ascii) (s : string) : bool :=
  match s with
  | String d _ => Ascii.eqb d b
  | "" => false
  end.

(** Somewhere in [s] the character [a] is directly followed by [b]. *)
Fixpoint has_pair (a b : ascii) (s : string) : bool :=
  match s with
  | "" => false
  | String c s' => (Ascii.eqb c a && starts_with b s') || has_pair a b s'
  end.

End Str.

(** ** The regular expressions of [re], as a backtracking matcher

    Only the constructs that occur in the two patterns of
    [remove_markdown_links] are modelled: escaped literals ([\[], [\\]),
    the negated class [[^\]]], concatenation, alternation (left alternative
    first), the greedy repeats [*] and [+], and capturing groups.  The
    non-capturing group [(?:...)] is plain bracketing of the syntax tree. *)

Module Re.

Inductive regex : Type :=
| Lit (c : ascii)
| NotChar (c : ascii)
| Cat (r1 r2 : regex)
| Alt (r1 r2 : regex)
| Star (r : regex)
| Plus (r : regex)
| Group (n : nat) (r : regex).

(** Texts of the groups that took part in the match, most recent first. *)
Definition captures := list (nat * string).

Fixpoint group (n : nat) (caps : captures) : string :=
  match caps with
  | [] => ""
  | (i, s) :: caps' => if Nat.eqb i n then s else group n caps'
  end.

Definition outcome := option (string * captures).

(** A continuation receives the text consumed by the sub-pattern, the rest
    of the subject and the groups set so far. *)
Definition cont := string -> string -> captures -> outcome.

(** Greedy repetition: another iteration of [step] is tried before the
    continuation.  An iteration that consumes nothing is refused, as the
    engine does to leave such loops.  Every accepted iteration shortens the
    subject, so a budget of its length is never exhausted. *)
Fixpoint loop (step : string -> captures -> cont -> outcome)
         (fuel : nat) (acc s : string) (caps : captures) (k : cont)
  : outcome :=
  match fuel with
  | 0 => k acc s caps
  | S fuel' =>
      match step s caps
              (fun c s' caps' =>
                 match c with
                 | "" => None
                 | _ => loop step fuel' (acc ++ c) s' caps' k
                 end) with
      | Some res => Some res
      | None => k acc s caps
      end
  end.

Fixpoint run (r : regex) (s : string) (caps : captures) (k : cont)
  : outcome :=
  match r with
  | Lit c =>
      match s with
      | String d s' => if Ascii.eqb d c then k (String d "") s' caps else None
      | "" => None
      end
  | NotChar c =>
      match s with
      | String d s' => if Ascii.eqb d c then None else k (String d "") s' caps
      | "" => None
      end
  | Cat r1 r2 =>
      run r1 s caps (fun c1 s1 caps1 =>
        run r2 s1 caps1 (fun c2 s2 caps2 => k (c1 ++ c2) s2 caps2))
  | Alt r1 r2 =>
      match run r1 s caps k with
      | Some res => Some res
      | None => run r2 s caps k
      end
  | Star r' => loop (run r') (String.length s) "" s caps k
  | Plus r' =>
      run r' s caps (fun c s' caps' =>
        loop (run r') (String.length s') c s' caps' k)
  | Group n r' =>
      run r' s caps (fun c s' caps' => k c s' ((n, c) :: caps'))
  end.

(** [pattern.match(s)]: the matched text and the groups, for a match that
    starts at the first character of [s]. *)
Definition match_at (r : regex) (s : string) : outcome :=
  run r s [] (fun c _ caps => Some (c, caps)).

(** Replacement templates: literal text and group references ([\1]). *)
Inductive titem : Type :=
| TLit (s : string)
| TGroup (n : nat).

Fixpoint expand (repl : list titem) (caps : captures) : string :=
  match repl with
  | [] => ""
  | TLit s :: repl' => s ++ expand repl' caps
  | TGroup n :: repl' => group n caps ++ expand repl' caps
  end.

(** [re.sub(r, repl, s)]: leftmost matches, not overlapping, each replaced
    by the expanded template.  [skip] counts the characters of the current
    match that are still to be passed over.  The patterns of this module
    match at least five characters, so the treatment of empty matches, on
    which versions of [re] differ, is never reached. *)
Fixpoint sub_from (r : regex) (repl : list titem) (s : string) (skip : nat)
  : string :=
  match s with
  | "" =>
      match match_at r "" with
      | Some (_, caps) => expand repl caps
      | None => ""
      end
  | String c rest =>
      match skip with
      | S n => sub_from r repl rest n
      | 0 =>
          match match_at r s with
          | Some (m, caps) =>
              expand repl caps ++
              match String.length m with
              | 0 => String c (sub_from r repl rest 0)
              | S n => sub_from r repl rest n
              end
          | None => String c (sub_from r repl rest 0)
          end
      end
  end.

Definition sub (r : regex) (repl : list titem) (s : string) : string :=
  sub_from r repl s 0.

(** The language of a pattern, without reference to the order in which the
    matcher explores it. *)
Inductive matches : regex -> string -> Prop :=
| MLit c : matches (Lit c) (String c "")
| MNotChar c d : d <> c -> matches (NotChar c) (String d "")
| MCat r1 r2 s1 s2 :
    matches r1 s1 -> matches r2 s2 -> matches (Cat r1 r2) (s1 ++ s2)
| MAltL r1 r2 s : matches r1 s -> matches (Alt r1 r2) s
| MAltR r1 r2 s : matches r2 s -> matches (Alt r1 r2) s
| MStarNil r : matches (Star r) ""
| MStarCons r s1 s2 :
    matches r s1 -> matches (Star r) s2 -> matches (Star r) (s1 ++ s2)
| MPlus r s1 s2 :
    matches r s1 -> matches (Star r) s2 -> matches (Plus r) (s1 ++ s2)
| MGroup n r s : matches r s -> matches (Group n r) s.

(** The pattern matches somewhere in [s]. *)
Definition occurs (r : regex) (s : string) : Prop :=
  exists pre m post, s = pre ++ m ++ post /\ matches r m.

(** The pattern has no capturing group. *)
Fixpoint groupless (r : regex) : bool :=
  match r with
  | Lit _ | NotChar _ => true
  | Cat r1 r2 | Alt r1 r2 => groupless r1 && groupless r2
  | Star r' | Plus r' => groupless r'
  | Group _ _ => false
  end.

(** [step] succeeds only with a result of its continuation, reached after
    consuming a prefix of the subject that is in the language of [r]; a
    pattern without groups hands the groups on as it received them. *)
Definition sound_step (r : regex)
           (step : string -> captures -> cont -> outcome) : Prop :=
  forall s caps k res,
    step s caps k = Some res ->
    exists c s' caps',
      s = c ++ s' /\ matches r c /\ k c s' caps' = Some res /\
      (groupless r = true -> caps' = caps).

(** [step] consults its continuation only at splits of the subject. *)
Definition local (step : string -> captures -> cont -> outcome) : Prop :=
  forall s caps k1 k2,
    (forall c s' caps', s = c ++ s' -> k1 c s' caps' = k2 c s' caps') ->
    step s caps k1 = step s caps k2.

End Re.

(** ** Sanitizers (setup.py, lines 135-188) *)

Import Re.

(** [(?:[^\]]|\\\])]: any character but a closing bracket, or a backslash
    followed by a closing bracket. *)
Definition bracket_body : regex :=
  Alt (NotChar "]") (Cat (Lit "\") (Lit "]")).

(** Named links, [[hello][url to hello]] or [[hello][]]: the link text is
    group 1, one or more [bracket_body] between [\[] and [\]]; the link name
    is group 2, zero or more [bracket_body] between [\[] and [\]]. *)
Definition named_link_re : regex :=
  Cat (Lit "[") (Cat (Group 1 (Plus bracket_body)) (Cat (Lit "]")
  (Cat (Lit "[") (Cat (Group 2 (Star bracket_body)) (Lit "]"))))).

(** Url links, [[example.com](http://www.example.com)]: the link text is
    group 1 as above; the url is group 2, zero or more [bracket_body] between
    [\(] and [\)]. *)
Definition url_link_re : regex :=
  Cat (Lit "[") (Cat (Group 1 (Plus bracket_body)) (Cat (Lit "]")
  (Cat (Lit "(") (Cat (Group 2 (Star bracket_body)) (Lit ")"))))).

(** The replacement ['\\1']. *)
Definition group1 : list titem := [TGroup 1].

Definition remove_markdown_links (md : string) : string :=
  let md := sub named_link_re group1 md in
  let md := sub url_link_re group1 md in
  md.


(** ** Python's string methods used by the module *)

Definition LF : ascii := "010"%char.
Definition CR : ascii := "013"%char.
Definition NL : string := String LF "".

Inductive interpreter : Type := Py2 | Py3.

(** Byte strings ([str] of Python 2, [bytes] of Python 3) and text strings
    ([str] of Python 3). *)
Inductive kind : Type := ByteString | TextString.

(** The kind of a [str]: of a string literal of the module and of what a
    file opened as text gives. *)
Definition str_kind (py : interpreter) : kind :=
  match py with
  | Py2 => ByteString
  | Py3 => TextString
  end.

(** Whitespace of [strip()]: space, [\t], [\n], [\v], [\f], [\r]; for a
    text string also the separators 0x1c to 0x1f, the next-line character
    0x85 and the no-break space 0xa0. *)
Definition is_space (k : kind) (c : ascii) : bool :=
  match nat_of_ascii c with
  | 32 | 9 | 10 | 11 | 12 | 13 => true
  | 28 | 29 | 30 | 31 | 133 | 160 =>
      match k with
      | TextString => true
      | ByteString => false
      end
  | _ => false
  end.

(** A line that is empty or made of whitespace only. *)
Fixpoint all_space (k : kind) (s : string) : bool :=
  match s with
  | "" => true
  | String c s' => is_space k c && all_space k s'
  end.

Fixpoint lstrip (k : kind) (s : string) : string :=
  match s with
  | String c s' => if is_space k c then lstrip k s' else s
  | "" => ""
  end.

Fixpoint rstrip (k : kind) (s : string) : string :=
  match s with
  | String c s' =>
      match rstrip k s' with
      | "" => if is_space k c then "" else String c ""
      | t => String c t
      end
  | "" => ""
  end.

Definition strip (k : kind) (s : string) : string := rstrip k (lstrip k s).

(** [s.split(sep)] for a one-character separator: one field more than there
    are separators. *)
Fixpoint split (sep : ascii) (s : string) : list string :=
  match s with
  | "" => [""]
  | String c s' =>
      if Ascii.eqb c sep then "" :: split sep s'
      else match split sep s' with
           | field :: fields => String c field :: fields
           | [] => [String c ""]
           end
  end.

(** The one-character line ends of [splitlines()] other than [\r]: [\n];
    for a text string also [\v], [\f], the separators 0x1c to 0x1e and the
    next-line character 0x85. *)
Definition is_line_end (k : kind) (c : ascii) : bool :=
  match nat_of_ascii c with
  | 10 => true
  | 11 | 12 | 28 | 29 | 30 | 133 =>
      match k with
      | TextString => true
      | ByteString => false
      end
  | _ => false
  end.

(** [s.splitlines()]: lines end at [\r\n], at [\r] or at one of the
    characters of [is_line_end]; the terminators are dropped and a final
    terminator opens no further line. *)
Fixpoint splitlines (k : kind) (s : string) : list string :=
  match s with
  | "" => []
  | String c s' =>
      if Ascii.eqb c CR then
        match s' with
        | String d s'' =>
            if Ascii.eqb d LF then "" :: splitlines k s''
            else "" :: splitlines k s'
        | "" => [""]
        end
      else if is_line_end k c then "" :: splitlines k s'
      else match splitlines k s' with
           | line :: lines => String c line :: lines
           | [] => [String c ""]
           end
  end.

(** ** Exceptions and results *)

Inductive exn : Type :=
| OSError
| ValueError
| TypeError
| IndexError
| ImportError
| IOError
| NameError (name : string).

Inductive result (A : Type) : Type :=
| Ok (a : A)
| Raise (e : exn).
Arguments Ok {A} a.
Arguments Raise {A} e.

(** ** Header chop (setup.py, lines 155-167) *)

(** The [while] loop: [md[0]] raises [IndexError] on the empty list. *)
Fixpoint chop_loop (k : kind) (md : list string) : result (list string) :=
  match md with
  | [] => Raise IndexError
  | line :: md' =>
      if (strip k line =? "") || prefix "[![" line then chop_loop k md'
      else Ok md
  end.

(** [k] is the kind of the string [md]. *)
Definition chop_markdown_header (k : kind) (md : string) : result string :=
  match chop_loop k (splitlines k md) with
  | Ok md => Ok (String.concat NL md)
  | Raise e => Raise e
  end.

Definition pypi_sanitize_markdown (k : kind) (md : string) : result string :=
  match chop_markdown_header k md with
  | Ok md => Ok (remove_markdown_links md)
  | Raise e => Raise e
  end.

Definition pypi_prepare_rst (rst : string) : string :=
  let head :=
    ".. This file is automatically generated by setup.py from README.md and CHANGELOG.md."
    ++ NL ++ NL in
  head ++ rst.

(** ** The world outside the module, and the monad of effects *)

Record world : Type := World {
  python : interpreter;                   (* the interpreter that runs the
                                             module *)
  environ : string -> option string;      (* os.environ *)
  popen : list string -> option string;   (* bytes on the stdout of a child
                                             process; None when it cannot be
                                             started *)
  isdir : string -> bool;                 (* os.path.isdir *)
  islink : string -> bool;                (* os.path.islink *)
  files : string -> option string;        (* regular files and their text *)
  pandoc : option (string -> result string);
                                          (* the pandoc module, None when the
                                             import fails *)
  stdout : list string;                   (* lines printed, oldest first *)
  warnings : list string                  (* warnings issued, oldest first *)
}.

Definition isfile (w : world) (path : string) : bool :=
  match files w path with
  | Some _ => true
  | None => false
  end.

Definition M (A : Type) : Type := world -> result A * world.

Definition ret {A} (a : A) : M A := fun w => (Ok a, w).

Definition raise {A} (e : exn) : M A := fun w => (Raise e, w).

Definition bind {A B} (c : M A) (f : A -> M B) : M B :=
  fun w =>
    match c w with
    | (Ok a, w') => f a w'
    | (Raise e, w') => (Raise e, w')
    end.

Notation "x <- c ;; k" := (bind c (fun x => k))
  (at level 61, c at next level, right associativity).
Notation "c ;;; k" := (bind c (fun _ => k))
  (at level 61, right associativity).

Definition lift {A} (r : result A) : M A := fun w => (r, w).

Definition ask {A} (f : world -> A) : M A := fun w => (Ok (f w), w).

Definition print (line : string) : M unit :=
  fun w => (Ok tt,
            World (python w) (environ w) (popen w) (isdir w) (islink w) (files w)
                  (pandoc w) (stdout w ++ [line]) (warnings w)).

Definition warn (message : string) : M unit :=
  fun w => (Ok tt,
            World (python w) (environ w) (popen w) (isdir w) (islink w) (files w)
                  (pandoc w) (stdout w) (warnings w ++ [message])).

Definition write_files (f : string -> option string) : M unit :=
  fun w => (Ok tt,
            World (python w) (environ w) (popen w) (isdir w) (islink w) f
                  (pandoc w) (stdout w) (warnings w)).

(** [subprocess.Popen(argv, stdout=PIPE)] then [communicate()[0]]: the bytes
    the program wrote, a byte string on both interpreters; [OSError] when
    the program cannot be started. *)
Definition communicate (argv : list string) : M string :=
  fun w =>
    match popen w argv with
    | Some out => (Ok out, w)
    | None => (Raise OSError, w)
    end.

Module fs.

(** Modelled from the spec: [utils/fs.py] is not part of the sources.
    [read_file] is the plain file-read helper, giving the text of the file
    as a [str]; an absent file is the missing-file failure. *)
Definition read_file (path : string) : M string :=
  fun w =>
    match files w path with
    | Some data => (Ok data, w)
    | None => (Raise IOError, w)
    end.

(** Modelled from the spec: [utils/fs.py] is not part of the sources.
    [update_file] persists the text under the name, overwriting any
    existing file of that name. *)
Definition update_file (path data : string) : M unit :=
  fun w =>
    write_files (fun p => if p =? path then Some data else files w p) w.

(** Modelled from the spec: [utils/fs.py] is not part of the sources.
    [rm_f] deletes any existing file of that name. *)
Definition rm_f (path : string) : M unit :=
  fun w =>
    write_files (fun p => if p =? path then None else files w p) w.

End fs.

(** ** Version resolution (setup.py, lines 38-54) *)

Definition target_version : string := "2.1.1".
Definition create_rst : bool := true.

(** ['git describe'.split()] is the argument vector [['git', 'describe']].
    The output and its [strip()] are byte strings; the separator of
    [split('-')] is a [str] literal.  On Python 2 both are byte strings, and
    unpacking the fields into three names raises [ValueError] unless there
    are exactly three.  On Python 3 the literal is a text string and
    [bytes.split] refuses it with [TypeError]. *)
Definition development_version_number : M string :=
  out <- communicate ["git"; "describe"] ;;
  let git_describe := strip ByteString out in
  py <- ask python ;;
  match str_kind py with
  | TextString => raise TypeError
  | ByteString =>
      match split "-" git_describe with
      | [release; build; commitish] => ret (release ++ "b" ++ build)
      | _ => raise ValueError
      end
  end.

Definition is_dev_version (w : world) : bool :=
  match environ w "PYPI" with
  | Some v => v =? "pypitest"
  | None => false
  end.

Definition version : M string :=
  dev <- ask is_dev_version ;;
  if dev then development_version_number
  else ret target_version.

(** ** Conversion and assembly (setup.py, lines 78-132) *)

Definition markdown2rst (md : string) : M string :=
  converter <- ask pandoc ;;
  match converter with
  | None => raise ImportError
  | Some to_rst => lift (to_rst md)
  end.

(** A call of a function of the module on a [str] of the running
    interpreter, as [fs.read_file] returns. *)
Definition on_str {A} (f : kind -> string -> result A) (s : string) : M A :=
  fun w => (f (str_kind (python w)) s, w).

Definition generate_rst : M string :=
  md <- fs.read_file "README.md" ;;
  md <- on_str pypi_sanitize_markdown md ;;
  rst <- markdown2rst md ;;
  let rst := pypi_prepare_rst rst in
  changes <- fs.read_file "CHANGELOG.md" ;;
  changes_md <- on_str pypi_sanitize_markdown changes ;;
  changes_rst <- markdown2rst changes_md ;;
  let rst := rst ++ NL ++ changes_rst in
  (if create_rst then fs.update_file "README.rst" rst
   else fs.rm_f "README.rst") ;;;
  ret rst.

(** A call through a bare name: the name is looked up in the module's
    namespace when the call is evaluated, and [NameError] is raised when
    nothing is bound to it. *)
Definition call_global {A B} (name : string) (binding : option (A -> M B))
           (a : A) : M B :=
  match binding with
  | Some f => f a
  | None => raise (NameError name)
  end.

(** [get_rst], with the binding of the bare name [read_file] made explicit. *)
Definition get_rst_in (read_file : option (string -> M string)) : M string :=
  tier1_dir <- ask (fun w => isdir w "pyandoc/pandoc") ;;
  tier1_link <- ask (fun w => islink w "pandoc") ;;
  if tier1_dir && tier1_link then
    print "Generating README.rst from README.md and CHANGELOG.md" ;;;
    generate_rst
  else
    has_rst <- ask (fun w => isfile w "README.rst") ;;
    if has_rst then
      print "Reading README.rst" ;;;
      call_global "read_file" read_file "README.rst"
    else
      warn "No README.rst found!" ;;;
      print "Reading README.md" ;;;
      readme <- call_global "read_file" read_file "README.md" ;;
      changelog <- call_global "read_file" read_file "CHANGELOG.md" ;;
      ret (String.concat "" [readme; NL; changelog]).

(** What the module binds to the bare name [read_file]: nothing.  Lines
    24-36 import [os], [errno], [sys], [subprocess], [warn], [setup],
    [TestCommand], [re], [fs] and [doc]; no statement of the module defines,
    assigns or imports [read_file], which [generate_rst] reaches as
    [fs.read_file]. *)
Definition read_file_in_module : option (string -> M string) := None.

Definition get_rst : M string := get_rst_in read_file_in_module.

(** ** Fixtures: concrete worlds on which the module is evaluated *)

Definition sources (readme changelog : string) (path : string)
  : option string :=
  if path =? "README.md" then Some readme
  else if path =? "CHANGELOG.md" then Some changelog
  else None.

(** A checkout with [PYPI=pypitest] in which [git describe] prints [out],
    under the interpreter [py]. *)
Definition dev_world (py : interpreter) (out : option string) : world :=
  World py (fun name => if name =? "PYPI" then Some "pypitest" else None)
        (fun _ => out) (fun _ => false) (fun _ => false)
        (sources "# readme" "# changes") None [] [].

(** A checkout without the pyandoc tooling and without README.rst. *)
Definition plain_world : world :=
  World Py3 (fun _ => None) (fun _ => None) (fun _ => false) (fun _ => false)
        (sources "# readme" "# changes") None [] [].

(** A checkout with the pyandoc directory and the pandoc link in place, in
    which the pandoc module cannot be imported. *)
Definition tooling_world : world :=
  World Py3 (fun _ => None) (fun _ => None)
        (fun path => path =? "pyandoc/pandoc") (fun path => path =? "pandoc")
        (sources "# readme" "# changes") None [] [].



(** A checkout with the pyandoc tooling in place and an importable pandoc
    whose rendering is the Markdown text behind a fixed mark. *)
Definition converting_world : world :=
  World Py3 (fun _ => None) (fun _ => None)
        (fun path => path =? "pyandoc/pandoc") (fun path => path =? "pandoc")
        (sources ("[![badge]]" ++ NL ++ "# readme [doc][ref]" ++ NL)
                 "# changes")
        (Some (fun md => Ok ("rst: " ++ md))) [] [].

(** A checkout without the tooling in which README.rst was built before. *)
Definition prebuilt_world : world :=
  World Py3 (fun _ => None) (fun _ => None) (fun _ => false) (fun _ => false)
        (fun path => if path =? "README.rst" then Some "prebuilt"
                     else sources "# readme" "# changes" path)
        None [] [].

(** ** The module body (setup.py, lines 50-61 and 192-232)

    The statements of the module that compute something, in their order:
    the version, the lines printed about it, and the arguments of the call
    of [setup] that are not literals.  [setup] itself belongs to
    setuptools. *)

Record setup_args : Type := SetupArgs {
  arg_version : string;
  arg_long_description : string;
  arg_download_url : string
}.

Definition setup_py : M setup_args :=
  dev <- ask is_dev_version ;;
  version <- (if dev then development_version_number
              else ret target_version) ;;
  print ("Version: " ++ version) ;;;
  (if dev then
     print "This is a DEV version" ;;;
     print ("Target: " ++ target_version ++ NL)
   else
     print ("!!!>>> This is a RELEASE version <<<!!!" ++ NL)) ;;;
  long_description <- get_rst ;;
  ret (SetupArgs version long_description
         ("https://github.com/chaimleib/intervaltree/tarball/" ++ version)).

(** ** Vocabulary of the properties *)

(** Number of occurrences of a character. *)
Fixpoint count_char (c : ascii) (s : string) : nat :=
  match s with
  | "" => 0
  | String d s' => (if Ascii.eqb d c then 1 else 0) + count_char c s'
  end.

(** The condition of the [while] loop of [chop_markdown_header] on a line:
    blank after stripping, or opening with the badge mark. *)
Definition is_header_line (k : kind) (line : string) : bool :=
  (strip k line =? "") || prefix "[![" line.

(** The notice that [pypi_prepare_rst] puts first. *)
Definition notice : string :=
  ".. This file is automatically generated by setup.py from README.md and CHANGELOG.md."
  ++ NL ++ NL.

(** * Properties *)

(** ** Strings *)

Module StrFacts.

Import Str.

Lemma append_nil_r (s : string) : s ++ "" = s.
Proof. induction s as [|c s IH]; simpl; [reflexivity | now rewrite IH]. Qed.

Lemma append_assoc (a b c : string) : (a ++ b) ++ c = a ++ (b ++ c).
Proof. induction a as [|x a IH]; simpl; [reflexivity | now rewrite IH]. Qed.

Lemma length_append (a b : string) :
  String.length (a ++ b) = String.length a + String.length b.
Proof. induction a as [|x a IH]; simpl; [reflexivity | now rewrite IH]. Qed.

Lemma append_eq_nil (a b : string) : "" = a ++ b -> a = "".
Proof. destruct a; [reflexivity | discriminate]. Qed.

Lemma suffix_app (t s : string) : suffix t s <-> exists p, s = p ++ t.
Proof.
  split.
  - induction 1 as [|c s _ [p ->]].
    + now exists "".
    + now exists (String c p).
  - intros [p ->]. induction p as [|c p IH]; simpl.
    + constructor.
    + now constructor.
Qed.

Lemma has_pair_suffix (a b : ascii) (t s : string) :
  suffix t s -> has_pair a b t = true -> has_pair a b s = true.
Proof.
  induction 1 as [|c s _ IH]; [trivial|].
  intros Ht. simpl. rewrite (IH Ht). apply orb_true_r.
Qed.

Lemma has_pair_here (a b : ascii) (x y : string) :
  has_pair a b (x ++ String a (String b y)) = true.
Proof.
  apply has_pair_suffix with (t := String a (String b y)).
  - apply suffix_app. now exists x.
  - simpl. now rewrite !Ascii.eqb_refl.
Qed.

Lemma has_pair_absent (a b : ascii) (s : string) :
  mem a s = false -> has_pair a b s = false.
Proof.
  induction s as [|c s IH]; simpl; [reflexivity|].
  intros H. apply orb_false_elim in H as [Hc Hs].
  now rewrite Hc, (IH Hs).
Qed.

Lemma mem_append_false (c : ascii) (a b : string) :
  mem c a = false -> mem c b = false -> mem c (a ++ b) = false.
Proof.
  induction a as [|x a IH]; simpl; [trivial|].
  intros H Hb. apply orb_false_elim in H as [Hx Ha].
  now rewrite Hx, (IH Ha Hb).
Qed.

Lemma has_pair_absent_end (a b : ascii) (s : string) :
  mem a s = false -> has_pair a b (s ++ String a "") = false.
Proof.
  induction s as [|c s IH]; simpl.
  - intros _. now rewrite andb_false_r.
  - intros H. apply orb_false_elim in H as [Hc Hs].
    now rewrite Hc, (IH Hs).
Qed.

End StrFacts.

(** ** The matcher *)

Module ReFacts.

Import Str StrFacts.

Lemma loop_sound (r : regex) step :
  sound_step r step ->
  forall fuel acc s caps k res,
    loop step fuel acc s caps k = Some res ->
    exists c s' caps',
      s = c ++ s' /\ matches (Star r) c /\
      k (acc ++ c) s' caps' = Some res /\
      (groupless r = true -> caps' = caps).
Proof.
  intros Hstep fuel.
  induction fuel as [|fuel IH]; intros acc s caps k res; simpl.
  - intros Hk. exists "", s, caps.
    rewrite append_nil_r. repeat split; [constructor | assumption].
  - destruct (step s caps _) as [res'|] eqn:Hiter.
    + intros [= ->].
      apply Hstep in Hiter as (c1 & s1 & caps1 & -> & Hc1 & Hrest & Hg1).
      destruct c1 as [|x c1]; [discriminate|].
      apply IH in Hrest as (c2 & s2 & caps2 & -> & Hc2 & Hk & Hg2).
      exists (String x c1 ++ c2), s2, caps2. split; [|split; [|split]].
      * now rewrite append_assoc.
      * exact (MStarCons Hc1 Hc2).
      * now rewrite <- append_assoc.
      * intros Hg. now rewrite (Hg2 Hg), (Hg1 Hg).
    + intros Hk. exists "", s, caps.
      rewrite append_nil_r. repeat split; [constructor | assumption].
Qed.

(** Every success of the matcher is a success of its continuation after a
    prefix in the language of the pattern. *)
Theorem run_sound (r : regex) : sound_step r (run r).
Proof.
  induction r as [c|c|r1 IH1 r2 IH2|r1 IH1 r2 IH2|r IH|r IH|n r IH];
    intros s caps k res; simpl.
  - destruct s as [|d s']; [discriminate|].
    destruct (Ascii.eqb_spec d c) as [->|]; [|discriminate].
    intros Hk. exists (String c ""), s', caps.
    repeat split; [constructor | assumption].
  - destruct s as [|d s']; [discriminate|].
    destruct (Ascii.eqb_spec d c) as [|Hne]; [discriminate|].
    intros Hk. exists (String d ""), s', caps.
    repeat split; [now constructor | assumption].
  - intros H. apply IH1 in H as (c1 & s1 & caps1 & -> & Hc1 & H & Hg1).
    apply IH2 in H as (c2 & s2 & caps2 & -> & Hc2 & H & Hg2).
    exists (c1 ++ c2), s2, caps2. rewrite append_assoc.
    repeat split; [now constructor | assumption |].
    intros Hg. apply andb_prop in Hg as [Ha Hb].
    now rewrite (Hg2 Hb), (Hg1 Ha).
  - destruct (run r1 s caps k) as [res'|] eqn:H1.
    + intros [= ->].
      apply IH1 in H1 as (c & s' & caps' & -> & Hc & H & Hg1).
      exists c, s', caps'. repeat split; [now apply MAltL | assumption |].
      intros Hg. apply andb_prop in Hg as [Ha _]. exact (Hg1 Ha).
    + intros H. apply IH2 in H as (c & s' & caps' & -> & Hc & H & Hg2).
      exists c, s', caps'. repeat split; [now apply MAltR | assumption |].
      intros Hg. apply andb_prop in Hg as [_ Hb]. exact (Hg2 Hb).
  - intros H.
    apply (loop_sound IH) in H as (c & s' & caps' & -> & Hc & H & Hg).
    exists c, s', caps'. now repeat split.
  - intros H. apply IH in H as (c1 & s1 & caps1 & -> & Hc1 & H & Hg1).
    apply (loop_sound IH) in H as (c2 & s2 & caps2 & -> & Hc2 & H & Hg2).
    exists (c1 ++ c2), s2, caps2. rewrite append_assoc.
    repeat split; [now constructor | assumption |].
    intros Hg. now rewrite (Hg2 Hg), (Hg1 Hg).
  - intros H. apply IH in H as (c & s' & caps' & -> & Hc & H & _).
    exists c, s', ((n, c) :: caps').
    repeat split; [now constructor | assumption | discriminate].
Qed.

Lemma run_fails (r : regex) (s : string) (caps : captures) :
  run r s caps (fun _ _ _ => None) = None.
Proof.
  destruct (run r s caps _) as [res|] eqn:H; [|reflexivity].
  now apply run_sound in H as (c & s' & caps' & _ & _ & H & _).
Qed.

Lemma match_at_sound (r : regex) (s m : string) (caps : captures) :
  match_at r s = Some (m, caps) -> exists s', s = m ++ s' /\ matches r m.
Proof.
  unfold match_at. intros H.
  apply run_sound in H as (c & s' & caps' & -> & Hc & [= -> ->] & _).
  now exists s'.
Qed.

(** The groups of a bracketed pair of patterns, as the two patterns of the
    module are: an opening bracket, group 1, a closing bracket, an opening
    character, group 2, a closing character. *)
Lemma match_at_two_groups (r1 r2 : regex) (o c : ascii) (s m : string)
      (caps : captures) :
  groupless r1 = true -> groupless r2 = true ->
  match_at (Cat (Lit "[") (Cat (Group 1 r1) (Cat (Lit "]")
           (Cat (Lit o) (Cat (Group 2 r2) (Lit c)))))) s = Some (m, caps) ->
  exists text name,
    matches r1 text /\ matches r2 name /\ caps = [(2, name); (1, text)].
Proof.
  intros Hg1 Hg2. unfold match_at. cbn [run].
  destruct s as [|d s]; [discriminate|].
  destruct (Ascii.eqb d "["); [|discriminate].
  intros H.
  apply run_sound in H as (text & s1 & caps1 & -> & Htext & H & Hc1).
  rewrite (Hc1 Hg1) in H.
  destruct s1 as [|d1 s1]; [discriminate|].
  destruct (Ascii.eqb d1 "]"); [|discriminate].
  destruct s1 as [|d2 s1]; [discriminate|].
  destruct (Ascii.eqb d2 o); [|discriminate].
  apply run_sound in H as (name & s2 & caps2 & -> & Hname & H & Hc2).
  rewrite (Hc2 Hg2) in H.
  destruct s2 as [|d3 s2]; [discriminate|].
  destruct (Ascii.eqb d3 c); [|discriminate].
  injection H as _ <-. now exists text, name.
Qed.

(** *** The budget of the repetition *)

Lemma loop_local step :
  local step ->
  forall fuel acc s caps k1 k2,
    (forall c s' caps',
        s = c ++ s' -> k1 (acc ++ c) s' caps' = k2 (acc ++ c) s' caps') ->
    loop step fuel acc s caps k1 = loop step fuel acc s caps k2.
Proof.
  intros Hstep fuel.
  induction fuel as [|fuel IH]; intros acc s caps k1 k2 Hk; simpl.
  - rewrite <- (append_nil_r acc). now apply Hk.
  - assert (k1 acc s caps = k2 acc s caps) as Hhere.
    { rewrite <- (append_nil_r acc). now apply Hk. }
    rewrite Hhere.
    erewrite Hstep; [reflexivity|].
    intros c s' caps' ->. destruct c as [|x c]; [reflexivity|].
    apply IH. intros c' s'' caps'' ->.
    rewrite append_assoc. apply Hk. now rewrite append_assoc.
Qed.

Lemma run_local (r : regex) : local (run r).
Proof.
  induction r as [c|c|r1 IH1 r2 IH2|r1 IH1 r2 IH2|r IH|r IH|n r IH];
    intros s caps k1 k2 Hk; simpl.
  - destruct s as [|d s']; [reflexivity|].
    destruct (Ascii.eqb d c); [now apply Hk | reflexivity].
  - destruct s as [|d s']; [reflexivity|].
    destruct (Ascii.eqb d c); [reflexivity | now apply Hk].
  - apply IH1. intros c1 s1 caps1 ->.
    apply IH2. intros c2 s2 caps2 ->.
    apply Hk. now rewrite append_assoc.
  - now rewrite (IH1 s caps k1 k2 Hk), (IH2 s caps k1 k2 Hk).
  - apply (loop_local IH). intros c s' caps' ->. now apply Hk.
  - apply IH. intros c s' caps' ->.
    apply (loop_local IH). intros c' s'' caps'' ->.
    apply Hk. now rewrite append_assoc.
  - apply IH. intros c s' caps' ->. now apply Hk.
Qed.

Lemma loop_fuel step :
  local step ->
  (forall s caps, step s caps (fun _ _ _ => None) = None) ->
  forall fuel1 fuel2 acc s caps k,
    String.length s <= fuel1 -> String.length s <= fuel2 ->
    loop step fuel1 acc s caps k = loop step fuel2 acc s caps k.
Proof.
  intros Hlocal Hfail.
  assert (forall fuel acc caps k,
             loop step fuel acc "" caps k = k acc "" caps) as Hend.
  { intros [|fuel] acc caps k; simpl; [reflexivity|].
    erewrite Hlocal; [now rewrite Hfail|].
    intros c s' caps' Hc. now rewrite (append_eq_nil _ _ Hc). }
  induction fuel1 as [|fuel1 IH]; intros fuel2 acc s caps k H1 H2.
  - destruct s; [|simpl in H1; lia]. now rewrite !Hend.
  - destruct fuel2 as [|fuel2].
    + destruct s; [|simpl in H2; lia]. now rewrite !Hend.
    + simpl. erewrite Hlocal; [reflexivity|].
      intros c s' caps' ->. destruct c as [|x c]; [reflexivity|].
      rewrite length_append in H1, H2. simpl in H1, H2.
      apply IH; lia.
Qed.

(** A budget of the length of the subject is as good as any larger one:
    the repetition is never cut short. *)
Theorem star_fuel (r : regex) (fuel : nat) (s : string) (caps : captures)
        (k : cont) :
  String.length s <= fuel ->
  loop (run r) fuel "" s caps k = run (Star r) s caps k.
Proof.
  intros Hfuel. simpl.
  apply (loop_fuel (@run_local r) (run_fails r)); [assumption | lia].
Qed.

(** *** Substitution *)

Lemma sub_from_no_match (r : regex) (repl : list titem) (s : string) :
  (forall t, suffix t s -> match_at r t = None) ->
  sub_from r repl s 0 = s.
Proof.
  induction s as [|c s IH]; intros Hnone.
  - simpl. now rewrite (Hnone "" (suffix_here _)).
  - cbn [sub_from]. rewrite (Hnone _ (suffix_here _)).
    rewrite IH; [reflexivity|].
    intros t Ht. apply Hnone. now constructor.
Qed.

Lemma sub_no_occurrence (r : regex) (repl : list titem) (s : string) :
  ~ occurs r s -> sub r repl s = s.
Proof.
  intros Hno. apply sub_from_no_match. intros t Ht.
  destruct (match_at r t) as [[m caps]|] eqn:Hm; [|reflexivity].
  elim Hno. apply match_at_sound in Hm as (post & -> & Hm).
  apply suffix_app in Ht as (pre & ->).
  now exists pre, m, post.
Qed.

Lemma sub_from_miss (r : regex) (repl : list titem) (c : ascii)
      (rest : string) :
  match_at r (String c rest) = None ->
  sub_from r repl (String c rest) 0 = String c (sub_from r repl rest 0).
Proof. intros H. cbn [sub_from]. now rewrite H. Qed.

Lemma sub_from_skip (r : regex) (repl : list titem) (a b : string) :
  sub_from r repl (a ++ b) (String.length a) = sub_from r repl b 0.
Proof.
  induction a as [|c a IH]; [reflexivity | exact IH].
Qed.

End ReFacts.

(** ** Version resolution *)

Lemma version_dev (w : world) :
  environ w "PYPI" = Some "pypitest" ->
  version w = development_version_number w.
Proof.
  intros Henv. unfold version, bind, ask, is_dev_version.
  now rewrite Henv.
Qed.

Lemma development_version_number_out (w : world) (out : string) :
  popen w ["git"; "describe"] = Some out ->
  development_version_number w =
    match python w with
    | Py3 => (Raise TypeError, w)
    | Py2 =>
        match split "-" (strip ByteString out) with
        | [release; build; _] => (Ok (release ++ "b" ++ build), w)
        | _ => (Raise ValueError, w)
        end
    end.
Proof.
  intros Hout. unfold development_version_number, bind, communicate, ask.
  rewrite Hout. destruct (python w); [|reflexivity]. cbn [str_kind].
  destruct (split "-" (strip ByteString out)) as [|a [|b [|c [|d l]]]];
    reflexivity.
Qed.

(** C2, on the code: with PYPI set to pypitest, when the describe output
    (stripped, as the code does) splits on the dash into exactly the three
    fields release, build and commitish, the version is release, then b,
    then build under Python 2, 1.2.3b4 for the output 1.2.3-4-gabc1234;
    under Python 3 the split of the bytes by a str raises TypeError and no
    version is returned. *)
Theorem version_development (w : world) (out : string) :
  environ w "PYPI" = Some "pypitest" ->
  popen w ["git"; "describe"] = Some out ->
  (forall release build commitish,
      split "-" (strip ByteString out) = [release; build; commitish] ->
      version w = match python w with
                  | Py2 => (Ok (release ++ "b" ++ build), w)
                  | Py3 => (Raise TypeError, w)
                  end) /\
  (out = "1.2.3-4-gabc1234" ->
   version w = match python w with
               | Py2 => (Ok "1.2.3b4", w)
               | Py3 => (Raise TypeError, w)
               end).
Proof.
  intros Henv Hout.
  rewrite (version_dev w Henv), (development_version_number_out w Hout).
  split.
  - intros release build commitish ->. reflexivity.
  - intros ->. reflexivity.
Qed.

Lemma version_development_witness :
  version (dev_world Py3 (Some ("1.2.3-4-gabc1234" ++ NL)))
  = (Raise TypeError, dev_world Py3 (Some ("1.2.3-4-gabc1234" ++ NL))) /\
  version (dev_world Py2 (Some ("1.2.3-4-gabc1234" ++ NL)))
  = (Ok "1.2.3b4", dev_world Py2 (Some ("1.2.3-4-gabc1234" ++ NL))).
Proof.
  split.
  - refine (proj1 (@version_development
                     (dev_world Py3 (Some ("1.2.3-4-gabc1234" ++ NL)))
                     ("1.2.3-4-gabc1234" ++ NL) _ _)
                  "1.2.3" "4" "gabc1234" _); reflexivity.
  - refine (proj1 (@version_development
                     (dev_world Py2 (Some ("1.2.3-4-gabc1234" ++ NL)))
                     ("1.2.3-4-gabc1234" ++ NL) _ _)
                  "1.2.3" "4" "gabc1234" _); reflexivity.
Defined.

(** C3, on the code: with PYPI set to pypitest, when the describe output
    does not split on the dash into exactly three fields, no version is
    returned: under Python 2 the three-way unpacking raises ValueError;
    under Python 3 the split itself has raised TypeError before any
    unpacking. *)
Theorem version_malformed (w : world) (out : string) :
  environ w "PYPI" = Some "pypitest" ->
  popen w ["git"; "describe"] = Some out ->
  List.length (split "-" (strip ByteString out)) <> 3 ->
  version w = (Raise match python w with
                     | Py2 => ValueError
                     | Py3 => TypeError
                     end, w).
Proof.
  intros Henv Hout Hlen.
  rewrite (version_dev w Henv), (development_version_number_out w Hout).
  destruct (python w); [|reflexivity].
  destruct (split "-" (strip ByteString out)) as [|a [|b [|c [|d l]]]];
    try reflexivity.
  now elim Hlen.
Qed.

Lemma version_malformed_witness :
  version (dev_world Py3 (Some ("1.2.3-4" ++ NL)))
  = (Raise TypeError, dev_world Py3 (Some ("1.2.3-4" ++ NL))) /\
  version (dev_world Py2 (Some ("1.2.3-4" ++ NL)))
  = (Raise ValueError, dev_world Py2 (Some ("1.2.3-4" ++ NL))).
Proof.
  split.
  - apply (@version_malformed (dev_world Py3 (Some ("1.2.3-4" ++ NL)))
                              ("1.2.3-4" ++ NL));
      [reflexivity | reflexivity | vm_compute; lia].
  - apply (@version_malformed (dev_world Py2 (Some ("1.2.3-4" ++ NL)))
                              ("1.2.3-4" ++ NL));
      [reflexivity | reflexivity | vm_compute; lia].
Defined.

(** C4, as stated, fails: with PYPI set to pypitest and an empty describe
    output, resolution raises, under either interpreter, an exception that
    is not OSError. *)
Lemma version_empty_output_no_oserror :
  environ (dev_world Py3 (Some "")) "PYPI" = Some "pypitest" /\
  popen (dev_world Py3 (Some "")) ["git"; "describe"] = Some "" /\
  (exists e, fst (version (dev_world Py3 (Some ""))) = Raise e) /\
  fst (version (dev_world Py3 (Some ""))) <> Raise OSError /\
  (exists e, fst (version (dev_world Py2 (Some ""))) = Raise e) /\
  fst (version (dev_world Py2 (Some ""))) <> Raise OSError.
Proof.
  split; [reflexivity|]. split; [reflexivity|].
  split; [now eexists|]. split; [vm_compute; discriminate|].
  split; [now eexists|]. vm_compute; discriminate.
Qed.

(** C4, amended: with PYPI set to pypitest, resolution raises OSError when
    git cannot be started; when git runs and its output is empty (or only
    whitespace), resolution raises an exception that is not OSError: the
    same one as for any output that does not split into three fields under
    the same interpreter. *)
Theorem version_process_failure (w : world) :
  environ w "PYPI" = Some "pypitest" ->
  (popen w ["git"; "describe"] = None -> version w = (Raise OSError, w)) /\
  (forall out,
      popen w ["git"; "describe"] = Some out ->
      strip ByteString out = "" ->
      (exists e, version w = (Raise e, w) /\ e <> OSError) /\
      (forall w' out',
          python w' = python w ->
          environ w' "PYPI" = Some "pypitest" ->
          popen w' ["git"; "describe"] = Some out' ->
          List.length (split "-" (strip ByteString out')) <> 3 ->
          fst (version w') = fst (version w))).
Proof.
  intros Henv. split.
  - rewrite (version_dev w Henv).
    intros Hnone. unfold development_version_number, bind, communicate.
    now rewrite Hnone.
  - intros out Hout Hempty. split.
    + rewrite (version_dev w Henv), (development_version_number_out w Hout).
      rewrite Hempty. destruct (python w); eexists; split;
        try reflexivity; discriminate.
    + intros w' out' Hpy Henv' Hout' Hlen.
      rewrite (version_dev w' Henv'), (development_version_number_out w' Hout').
      rewrite (version_dev w Henv), (development_version_number_out w Hout).
      rewrite Hempty, Hpy. destruct (python w); [|reflexivity].
      destruct (split "-" (strip ByteString out')) as [|a [|b [|c [|d l]]]];
        try reflexivity.
      now elim Hlen.
Qed.

Lemma version_process_failure_witness :
  version (dev_world Py3 None) = (Raise OSError, dev_world Py3 None) /\
  (exists e, version (dev_world Py3 (Some NL))
             = (Raise e, dev_world Py3 (Some NL)) /\ e <> OSError) /\
  fst (version (dev_world Py3 (Some "1.2.3-4")))
  = fst (version (dev_world Py3 (Some NL))).
Proof.
  pose proof (@version_process_failure (dev_world Py3 None) eq_refl)
    as [Hnone _].
  pose proof (@version_process_failure (dev_world Py3 (Some NL)) eq_refl)
    as [_ Hempty].
  destruct (Hempty NL eq_refl eq_refl) as [Hraise Hsame].
  split; [exact (Hnone eq_refl)|]. split; [exact Hraise|].
  apply (Hsame (dev_world Py3 (Some "1.2.3-4")) "1.2.3-4");
    [reflexivity | reflexivity | reflexivity | vm_compute; lia].
Defined.

(** ** Header chop *)

(** C5, as stated, fails: the result does not end with a newline. *)
Lemma chop_markdown_header_drops_final_newline :
  chop_markdown_header ByteString
    (NL ++ NL ++ "[![build]]" ++ NL ++ "Real content" ++ NL)
  <> Ok ("Real content" ++ NL) /\
  chop_markdown_header TextString
    (NL ++ NL ++ "[![build]]" ++ NL ++ "Real content" ++ NL)
  <> Ok ("Real content" ++ NL).
Proof. split; vm_compute; discriminate. Qed.

(** C5, amended: on the input of two blank lines, the badge line and
    "Real content" with its newline, the result is "Real content" without a
    final newline: splitlines drops the line terminators and join puts
    newlines only between lines. *)
Theorem chop_markdown_header_example (k : kind) :
  chop_markdown_header k
    (NL ++ NL ++ "[![build]]" ++ NL ++ "Real content" ++ NL)
  = Ok "Real content".
Proof. destruct k; reflexivity. Qed.

Lemma lstrip_all_space (k : kind) (s : string) :
  all_space k s = true -> lstrip k s = "".
Proof.
  induction s as [|c s IH]; simpl; [reflexivity|].
  intros H. apply andb_prop in H as [Hc Hs].
  rewrite Hc. exact (IH Hs).
Qed.

Lemma strip_all_space (k : kind) (s : string) :
  all_space k s = true -> strip k s = "".
Proof. intros H. unfold strip. now rewrite (lstrip_all_space k s H). Qed.

Lemma chop_loop_blank (k : kind) (md : list string) :
  Forall (fun line => all_space k line = true) md ->
  chop_loop k md = Raise IndexError.
Proof.
  induction 1 as [|line md Hline _ IH]; simpl; [reflexivity|].
  now rewrite (strip_all_space k line Hline).
Qed.

(** C6: when every line of the input is empty or consists of whitespace
    only, the header chop raises IndexError (md[0] on the exhausted list) and
    returns nothing. *)
Theorem chop_markdown_header_blank (k : kind) (md : string) :
  Forall (fun line => all_space k line = true) (splitlines k md) ->
  chop_markdown_header k md = Raise IndexError.
Proof.
  intros H. unfold chop_markdown_header.
  now rewrite (chop_loop_blank k H).
Qed.

Lemma chop_markdown_header_blank_witness :
  chop_markdown_header TextString (NL ++ "  " ++ NL ++ String CR NL)
  = Raise IndexError.
Proof.
  apply chop_markdown_header_blank.
  repeat constructor.
Defined.

(** ** Link removal *)

Section Links.

Import Str StrFacts ReFacts.

(** C7: the three literal cases of link removal. *)
Theorem remove_markdown_links_examples :
  remove_markdown_links "[hello][world]" = "hello" /\
  remove_markdown_links "[hello][]" = "hello" /\
  remove_markdown_links "[hello](http://example.com)" = "hello".
Proof. repeat split; vm_compute; reflexivity. Qed.

(** An escaped closing bracket inside the link text is reached by
    backtracking; the url group stops at a closing bracket, not at a
    closing parenthesis. *)
Example remove_markdown_links_escaped :
  remove_markdown_links "see [a\]b][c] and [x](y) z" = "see a\]b and x z".
Proof. vm_compute. reflexivity. Qed.

Example remove_markdown_links_greedy_url :
  remove_markdown_links "[a](b) and (c)" = "a".
Proof. vm_compute. reflexivity. Qed.

Ltac invert_matches :=
  repeat match goal with
         | H : matches (Cat _ _) _ |- _ => inversion H; subst; clear H
         | H : matches (Lit _) _ |- _ => inversion H; subst; clear H
         | H : matches (Group _ _) _ |- _ => inversion H; subst; clear H
         end.

Lemma named_link_shape (m : string) :
  matches named_link_re m ->
  exists text name,
    m = "[" ++ text ++ "][" ++ name ++ "]" /\
    matches (Plus bracket_body) text /\ matches (Star bracket_body) name.
Proof.
  unfold named_link_re. intros H. invert_matches.
  eexists _, _. split; [|split; eassumption]. reflexivity.
Qed.

Lemma url_link_shape (m : string) :
  matches url_link_re m ->
  exists text url,
    m = "[" ++ text ++ "](" ++ url ++ ")" /\
    matches (Plus bracket_body) text /\ matches (Star bracket_body) url.
Proof.
  unfold url_link_re. intros H. invert_matches.
  eexists _, _. split; [|split; eassumption]. reflexivity.
Qed.

(** A named link needs a closing bracket directly followed by an opening
    bracket, a url link one directly followed by an opening parenthesis. *)
Lemma occurs_named_pair (s : string) :
  occurs named_link_re s -> has_pair "]" "[" s = true.
Proof.
  intros (pre & m & post & -> & Hm).
  apply named_link_shape in Hm as (text & name & -> & _ & _).
  apply has_pair_suffix
    with (t := (String "[" text ++ String "]" (String "[" (name ++ "]")))
               ++ post).
  - apply suffix_app. now exists pre.
  - rewrite append_assoc. apply has_pair_here.
Qed.

Lemma occurs_url_pair (s : string) :
  occurs url_link_re s -> has_pair "]" "(" s = true.
Proof.
  intros (pre & m & post & -> & Hm).
  apply url_link_shape in Hm as (text & url & -> & _ & _).
  apply has_pair_suffix
    with (t := (String "[" text ++ String "]" (String "(" (url ++ ")")))
               ++ post).
  - apply suffix_app. now exists pre.
  - rewrite append_assoc. apply has_pair_here.
Qed.

Lemma sub_named_no_pair (s : string) :
  has_pair "]" "[" s = false -> sub named_link_re group1 s = s.
Proof.
  intros Hpair. apply sub_no_occurrence. intros Hocc.
  apply occurs_named_pair in Hocc. congruence.
Qed.

Lemma sub_url_no_pair (s : string) :
  has_pair "]" "(" s = false -> sub url_link_re group1 s = s.
Proof.
  intros Hpair. apply sub_no_occurrence. intros Hocc.
  apply occurs_url_pair in Hocc. congruence.
Qed.

(** C8: a string in which neither pattern occurs is returned unchanged. *)
Theorem remove_markdown_links_no_links (md : string) :
  ~ occurs named_link_re md -> ~ occurs url_link_re md ->
  remove_markdown_links md = md.
Proof.
  intros Hnamed Hurl. unfold remove_markdown_links.
  rewrite (sub_no_occurrence group1 Hnamed).
  exact (sub_no_occurrence group1 Hurl).
Qed.

Lemma remove_markdown_links_no_links_witness :
  remove_markdown_links "Plain text, a [bracket] and (parentheses)."
  = "Plain text, a [bracket] and (parentheses).".
Proof.
  apply remove_markdown_links_no_links; intros Hocc.
  - apply occurs_named_pair in Hocc. vm_compute in Hocc. discriminate.
  - apply occurs_url_pair in Hocc. vm_compute in Hocc. discriminate.
Defined.

(** *** Greedy matching of the link text *)

Lemma bracket_body_char (c : ascii) (s : string) (caps : captures)
      (k : cont) (res : string * captures) :
  Ascii.eqb c "]" = false ->
  k (String c "") s caps = Some res ->
  run bracket_body (String c s) caps k = Some res.
Proof. intros Hc Hk. simpl. now rewrite Hc, Hk. Qed.

Lemma bracket_body_close (s : string) (caps : captures) (k : cont) :
  run bracket_body (String "]" s) caps k = None.
Proof. reflexivity. Qed.

Lemma loop_greedy (text : string) :
  mem "]" text = false ->
  forall fuel acc rest caps k res,
    String.length text <= fuel ->
    k (acc ++ text) (String "]" rest) caps = Some res ->
    loop (run bracket_body) fuel acc (text ++ String "]" rest) caps k
    = Some res.
Proof.
  induction text as [|c text IH];
    intros Hmem fuel acc rest caps k res Hfuel Hk.
  - rewrite append_nil_r in Hk.
    destruct fuel; cbn [loop append]; [exact Hk|].
    now rewrite bracket_body_close.
  - simpl in Hmem. apply orb_false_elim in Hmem as [Hc Hmem].
    destruct fuel as [|fuel]; [simpl in Hfuel; lia|].
    simpl in Hfuel. cbn [loop append].
    erewrite bracket_body_char; [reflexivity | exact Hc |].
    cbn beta iota. apply (IH Hmem); [lia|].
    now rewrite append_assoc.
Qed.

Lemma match_at_named_empty_name (text : string) :
  text <> "" -> mem "]" text = false ->
  match_at named_link_re ("[" ++ text ++ "][]")
  = Some ("[" ++ text ++ "][]", [(2, ""); (1, text)]).
Proof.
  intros Hne Hmem. destruct text as [|c text]; [now elim Hne|].
  simpl in Hmem. apply orb_false_elim in Hmem as [Hc Hmem].
  unfold match_at, named_link_re.
  cbn [run append Ascii.eqb Bool.eqb].
  erewrite bracket_body_char; [reflexivity | exact Hc |].
  cbn beta. apply (loop_greedy text Hmem).
  - rewrite length_append. lia.
  - reflexivity.
Qed.

Lemma sub_named_empty_name (text : string) :
  text <> "" -> mem "]" text = false ->
  sub named_link_re group1 ("[" ++ text ++ "][]") = text.
Proof.
  intros Hne Hmem. unfold sub.
  change ("[" ++ text ++ "][]") with (String "[" (text ++ "][]")) at 1.
  cbn [sub_from].
  change (String "[" (text ++ "][]")) with ("[" ++ text ++ "][]").
  rewrite (match_at_named_empty_name Hne Hmem).
  cbn [String.length append expand group1 group Nat.eqb].
  rewrite <- (append_nil_r (text ++ "][]")) at 1.
  rewrite sub_from_skip. cbn. now rewrite !append_nil_r.
Qed.

Lemma link_text_nonempty (text : string) :
  matches (Plus bracket_body) text -> text <> "".
Proof.
  intros H. inversion H as [ | | | | | | |r s1 s2 Hbody _ | ]; subst.
  inversion Hbody as [ | | |r1 r2 s Hchar|r1 r2 s Hesc| | | | ]; subst.
  - inversion Hchar; subst. discriminate.
  - inversion Hesc as [ | |r1 r2 t1 t2 Hslash _ | | | | | | ]; subst.
    inversion Hslash; subst. discriminate.
Qed.

(** C10, as stated, fails: an occurrence with an empty link text is not
    left unchanged in every string.  After an opening bracket the occurrence
    is consumed as the end of a link whose text is that bracket, and nothing
    of it is left; after a link with an empty name its first two characters
    are consumed as that name. *)
Lemma remove_markdown_links_empty_text_in_context :
  remove_markdown_links ("[" ++ "[][ref]") = "[" /\
  remove_markdown_links ("[a]" ++ "[](u)") = "a(u)" /\
  ~ (forall pre post, exists pre' post',
        remove_markdown_links (pre ++ "[][ref]" ++ post)
        = pre' ++ "[][ref]" ++ post').
Proof.
  split; [vm_compute; reflexivity|]. split; [vm_compute; reflexivity|].
  intros H. destruct (H "[" "") as (pre' & post' & Heq).
  assert (remove_markdown_links ("[" ++ "[][ref]" ++ "") = "[") as Hrun
      by (vm_compute; reflexivity).
  rewrite Hrun in Heq. apply (f_equal String.length) in Heq.
  rewrite !length_append in Heq. simpl in Heq. lia.
Qed.

(** C10, amended: the link text must be non-empty.  In every string, a
    match of either pattern has a non-empty group 1.  For every name and url
    without a closing bracket, the strings that are exactly an opening and a
    closing bracket followed by the bracketed name or the parenthesised url
    are returned unchanged; for every non-empty text without a closing
    bracket, the form with an empty name is rewritten to the text. *)
Theorem remove_markdown_links_empty_text :
  (forall s m caps,
      match_at named_link_re s = Some (m, caps) \/
      match_at url_link_re s = Some (m, caps) ->
      group 1 caps <> "") /\
  (forall name,
      mem "]" name = false ->
      remove_markdown_links ("[][" ++ name ++ "]") = "[][" ++ name ++ "]") /\
  (forall url,
      mem "]" url = false ->
      remove_markdown_links ("[](" ++ url ++ ")") = "[](" ++ url ++ ")") /\
  (forall text,
      text <> "" -> mem "]" text = false ->
      remove_markdown_links ("[" ++ text ++ "][]") = text).
Proof.
  unfold remove_markdown_links. split; [|split; [|split]].
  - intros s m caps [H|H];
      apply match_at_two_groups in H as (text & name & Htext & _ & ->);
      try reflexivity;
      exact (link_text_nonempty Htext).
  - intros name Hname.
    assert (sub named_link_re group1 ("[][" ++ name ++ "]")
            = "[][" ++ name ++ "]") as ->.
    { unfold sub. cbn [append].
      do 2 (rewrite sub_from_miss by reflexivity).
      change (sub_from named_link_re group1 (String "[" (name ++ "]")) 0)
        with (sub named_link_re group1 (String "[" (name ++ "]"))).
      rewrite sub_named_no_pair; [reflexivity|].
      cbn. now apply has_pair_absent_end. }
    apply sub_url_no_pair. cbn. now apply has_pair_absent_end.
  - intros url Hurl.
    assert (sub named_link_re group1 ("[](" ++ url ++ ")")
            = "[](" ++ url ++ ")") as ->.
    { apply sub_named_no_pair. cbn. apply has_pair_absent.
      now apply mem_append_false. }
    unfold sub. cbn [append].
    do 2 (rewrite sub_from_miss by reflexivity).
    change (sub_from url_link_re group1 (String "(" (url ++ ")")) 0)
      with (sub url_link_re group1 (String "(" (url ++ ")"))).
    rewrite sub_url_no_pair; [reflexivity|].
    cbn. apply has_pair_absent. now apply mem_append_false.
  - intros text Hne Htext.
    rewrite (sub_named_empty_name Hne Htext).
    apply sub_url_no_pair. now apply has_pair_absent.
Qed.

Lemma remove_markdown_links_empty_text_witness :
  group 1 [(2, "world"); (1, "hello")] <> "" /\
  remove_markdown_links "[][ref]" = "[][ref]" /\
  remove_markdown_links "[](url)" = "[](url)" /\
  remove_markdown_links "[text][]" = "text".
Proof.
  destruct remove_markdown_links_empty_text as (Hgroup & Hname & Hurl & Htext).
  split; [|split; [|split]].
  - apply (Hgroup "[hello][world]" "[hello][world]"). left. reflexivity.
  - apply (Hname "ref"). reflexivity.
  - apply (Hurl "url"). reflexivity.
  - apply (Htext "text"); [discriminate | reflexivity].
Defined.

End Links.

(** ** The long description *)

Lemma get_rst_in_tier3 (binding : option (string -> M string)) (w : world) :
  isdir w "pyandoc/pandoc" && islink w "pandoc" = false ->
  files w "README.rst" = None ->
  get_rst_in binding w =
    (warn "No README.rst found!" ;;;
     print "Reading README.md" ;;;
     readme <- call_global "read_file" binding "README.md" ;;
     changelog <- call_global "read_file" binding "CHANGELOG.md" ;;
     ret (String.concat "" [readme; NL; changelog])) w.
Proof.
  intros Htier Hrst. unfold get_rst_in at 1.
  unfold bind at 1 2. unfold ask at 1 2. rewrite Htier.
  unfold bind at 1. unfold ask at 1. unfold isfile. now rewrite Hrst.
Qed.

(** C1, on the code: when the tier-1 condition does not hold and there is no
    README.rst, get_rst issues its one warning and then raises NameError at
    the call of the unbound name read_file; it returns no text. *)
Theorem get_rst_raw_fallback_name_error (w : world) :
  isdir w "pyandoc/pandoc" && islink w "pandoc" = false ->
  files w "README.rst" = None ->
  fst (get_rst w) = Raise (NameError "read_file") /\
  warnings (snd (get_rst w)) = (warnings w ++ ["No README.rst found!"])%list.
Proof.
  intros Htier Hrst. unfold get_rst.
  rewrite (get_rst_in_tier3 _ w Htier Hrst). split; reflexivity.
Qed.

Lemma get_rst_raw_fallback_name_error_witness :
  files plain_world "README.md" = Some "# readme" /\
  files plain_world "CHANGELOG.md" = Some "# changes" /\
  fst (get_rst plain_world) = Raise (NameError "read_file") /\
  warnings (snd (get_rst plain_world)) = ["No README.rst found!"].
Proof.
  split; [reflexivity | split; [reflexivity|]].
  apply (@get_rst_raw_fallback_name_error plain_world); reflexivity.
Defined.

(** Were the bare name bound to the helper that generate_rst calls as
    fs.read_file, the same branch would return the raw README, a newline and
    the raw CHANGELOG, with the one warning. *)
Lemma get_rst_in_raw_fallback (w : world) (readme changelog : string) :
  isdir w "pyandoc/pandoc" && islink w "pandoc" = false ->
  files w "README.rst" = None ->
  files w "README.md" = Some readme ->
  files w "CHANGELOG.md" = Some changelog ->
  fst (get_rst_in (Some fs.read_file) w) = Ok (readme ++ NL ++ changelog) /\
  warnings (snd (get_rst_in (Some fs.read_file) w))
  = (warnings w ++ ["No README.rst found!"])%list.
Proof.
  intros Htier Hrst Hreadme Hchanges.
  rewrite (get_rst_in_tier3 _ w Htier Hrst).
  unfold bind, warn, print, call_global, fs.read_file, ret; simpl.
  rewrite Hreadme; simpl. rewrite Hchanges; simpl.
  split; reflexivity.
Qed.

(** C9, as stated, fails: with the tooling directory and link in place and
    the pandoc import failing, get_rst raises ImportError to its caller. *)
Lemma get_rst_propagates_import_error :
  isdir tooling_world "pyandoc/pandoc" = true /\
  islink tooling_world "pandoc" = true /\
  pandoc tooling_world = None /\
  fst (get_rst tooling_world) = Raise ImportError.
Proof. repeat split. Qed.

(** C9, amended: the tier is chosen from the filesystem alone, and get_rst
    handles no exception.  With the pandoc import failing: when the tier-1
    condition does not hold the converter is never loaded and get_rst raises
    no ImportError; when it holds, and README.md is read and sanitized
    without error, the ImportError of markdown2rst reaches the caller of
    get_rst. *)
Theorem get_rst_converter_unavailable (w : world) :
  pandoc w = None ->
  (isdir w "pyandoc/pandoc" && islink w "pandoc" = false ->
   fst (get_rst w) <> Raise ImportError) /\
  (isdir w "pyandoc/pandoc" && islink w "pandoc" = true ->
   forall readme md,
     files w "README.md" = Some readme ->
     pypi_sanitize_markdown (str_kind (python w)) readme = Ok md ->
     fst (get_rst w) = Raise ImportError).
Proof.
  intros Hpandoc. split.
  - intros Htier. unfold get_rst, get_rst_in.
    unfold bind at 1 2. unfold ask at 1 2. rewrite Htier.
    unfold bind at 1. unfold ask at 1.
    destruct (isfile w "README.rst"); simpl; discriminate.
  - intros Htier readme md Hreadme Hmd. unfold get_rst, get_rst_in.
    unfold bind at 1 2. unfold ask at 1 2. rewrite Htier.
    unfold bind at 1. unfold print at 1.
    unfold generate_rst. unfold bind at 1. unfold fs.read_file at 1.
    cbn [files]. rewrite Hreadme.
    unfold bind at 1. unfold on_str at 1. cbn [python]. rewrite Hmd.
    unfold bind at 1. unfold markdown2rst at 1. unfold bind at 1.
    unfold ask at 1. cbn [pandoc]. rewrite Hpandoc. reflexivity.
Qed.

Lemma get_rst_converter_unavailable_witness :
  fst (get_rst plain_world) <> Raise ImportError /\
  fst (get_rst tooling_world) = Raise ImportError.
Proof.
  split.
  - apply (proj1 (@get_rst_converter_unavailable plain_world eq_refl)).
    reflexivity.
  - apply (proj2 (@get_rst_converter_unavailable tooling_world eq_refl)
                 eq_refl "# readme" "# readme"); reflexivity.
Defined.

(** * Further properties of the module *)

(** ** Release and development versions *)

(** X1: unless PYPI is set to pypitest, the version is the target version
    and the world is left as it was, whatever git would print or whether it
    can be started at all. *)
Theorem version_release (w : world) :
  environ w "PYPI" <> Some "pypitest" ->
  version w = (Ok target_version, w).
Proof.
  intros Henv. unfold version, bind, ask, is_dev_version.
  destruct (environ w "PYPI") as [v|]; [|reflexivity].
  destruct (String.eqb_spec v "pypitest") as [->|]; [|reflexivity].
  now elim Henv.
Qed.

Lemma version_release_witness :
  version plain_world = (Ok "2.1.1", plain_world).
Proof. apply version_release. discriminate. Defined.

Lemma split_nonempty (sep : ascii) (s : string) : split sep s <> [].
Proof.
  destruct s as [|c s]; simpl; [discriminate|].
  destruct (Ascii.eqb c sep); [discriminate|].
  destruct (split sep s); discriminate.
Qed.

Lemma split_length (sep : ascii) (s : string) :
  List.length (split sep s) = S (count_char sep s).
Proof.
  induction s as [|c s IH]; simpl; [reflexivity|].
  destruct (Ascii.eqb c sep); simpl; [now rewrite IH|].
  destruct (split sep s) as [|field fields] eqn:Hs; [discriminate|].
  exact IH.
Qed.

Lemma concat_cons_char (sep : string) (c : ascii) (x : string)
      (xs : list string) :
  String.concat sep (String c x :: xs) = String c (String.concat sep (x :: xs)).
Proof. destruct xs; reflexivity. Qed.

(** Joining the fields with the separator gives the text back. *)
Lemma split_join (sep : ascii) (s : string) :
  String.concat (String sep "") (split sep s) = s.
Proof.
  induction s as [|c s IH]; simpl; [reflexivity|].
  destruct (Ascii.eqb_spec c sep) as [->|_].
  - pose proof (split_nonempty sep s) as Hne.
    destruct (split sep s) as [|field fields]; [now elim Hne|].
    change (String.concat (String sep "") ("" :: field :: fields))
      with (String sep (String.concat (String sep "") (field :: fields))).
    now rewrite IH.
  - pose proof (split_nonempty sep s) as Hne.
    destruct (split sep s) as [|field fields]; [now elim Hne|].
    now rewrite concat_cons_char, IH.
Qed.

Lemma split_fields (sep : ascii) (s : string) :
  Forall (fun field => Str.mem sep field = false) (split sep s).
Proof.
  induction s as [|c s IH]; simpl.
  - now repeat constructor.
  - destruct (Ascii.eqb c sep) eqn:Hc.
    + now constructor.
    + destruct (split sep s) as [|field fields].
      * repeat constructor. simpl. now rewrite Hc.
      * inversion IH as [|? ? Hfield Hfields]; subst.
        constructor; [|assumption]. simpl. now rewrite Hc, Hfield.
Qed.

(** X2: with PYPI set to pypitest and git printing [out], a version is
    returned exactly when the interpreter is Python 2 and the stripped
    output holds two dashes; any other number of dashes ends in an
    exception, and so does every output under Python 3. *)
Theorem version_development_two_dashes (w : world) (out : string) :
  environ w "PYPI" = Some "pypitest" ->
  popen w ["git"; "describe"] = Some out ->
  ((exists v, fst (version w) = Ok v) <->
   python w = Py2 /\ count_char "-" (strip ByteString out) = 2).
Proof.
  intros Henv Hout.
  rewrite (version_dev w Henv), (development_version_number_out w Hout).
  destruct (python w).
  - pose proof (split_length "-" (strip ByteString out)) as Hlen.
    destruct (split "-" (strip ByteString out)) as [|a [|b [|c [|d l]]]];
      simpl in Hlen; split.
    all: try (intros [v Hv]; discriminate).
    all: try (intros [_ Hc]; rewrite Hc in Hlen; discriminate).
    + intros _. split; [reflexivity | now injection Hlen].
    + intros _. now eexists.
  - split; [intros [v Hv]; discriminate | intros [Hpy _]; discriminate].
Qed.

Lemma version_development_two_dashes_witness :
  ((exists v, fst (version (dev_world Py2 (Some "v2.0-rc1-7-gabc"))) = Ok v)
   <-> Py2 = Py2 /\ count_char "-" (strip ByteString "v2.0-rc1-7-gabc") = 2)
  /\
  ((exists v, fst (version (dev_world Py3 (Some "2.0-7-gabc"))) = Ok v)
   <-> Py3 = Py2 /\ count_char "-" (strip ByteString "2.0-7-gabc") = 2)
  /\
  ((exists v, fst (version (dev_world Py2 (Some "2.0-7-gabc"))) = Ok v)
   <-> Py2 = Py2 /\ count_char "-" (strip ByteString "2.0-7-gabc") = 2).
Proof.
  split; [|split].
  - apply (@version_development_two_dashes
             (dev_world Py2 (Some "v2.0-rc1-7-gabc")) "v2.0-rc1-7-gabc");
      reflexivity.
  - apply (@version_development_two_dashes
             (dev_world Py3 (Some "2.0-7-gabc")) "2.0-7-gabc");
      reflexivity.
  - apply (@version_development_two_dashes
             (dev_world Py2 (Some "2.0-7-gabc")) "2.0-7-gabc");
      reflexivity.
Defined.

(** X3: a development version is returned only under Python 2, and then it
    comes from an output of the form release, dash, build, dash, commitish,
    in which no field holds a dash; it is release, b, build, and holds no
    dash itself. *)
Theorem version_development_fields (w : world) (out v : string) :
  environ w "PYPI" = Some "pypitest" ->
  popen w ["git"; "describe"] = Some out ->
  fst (version w) = Ok v ->
  python w = Py2 /\
  exists release build commitish,
    strip ByteString out = release ++ "-" ++ build ++ "-" ++ commitish /\
    v = release ++ "b" ++ build /\
    Str.mem "-" release = false /\ Str.mem "-" build = false /\
    Str.mem "-" commitish = false /\ Str.mem "-" v = false.
Proof.
  intros Henv Hout.
  rewrite (version_dev w Henv), (development_version_number_out w Hout).
  destruct (python w); [|discriminate].
  pose proof (split_join "-" (strip ByteString out)) as Hjoin.
  pose proof (split_fields "-" (strip ByteString out)) as Hfields.
  destruct (split "-" (strip ByteString out)) as [|a [|b [|c [|d l]]]];
    try discriminate.
  intros [= <-]. split; [reflexivity|].
  inversion Hfields as [|? ? Ha Hrest]; subst.
  inversion Hrest as [|? ? Hb Hrest']; subst.
  inversion Hrest' as [|? ? Hc _]; subst.
  exists a, b, c. repeat split; try assumption.
  - now rewrite <- Hjoin.
  - apply StrFacts.mem_append_false; [assumption|].
    simpl. exact Hb.
Qed.

Lemma version_development_fields_witness :
  Py2 = Py2 /\
  exists release build commitish,
    strip ByteString ("1.2.3-4-gabc1234" ++ NL)
    = release ++ "-" ++ build ++ "-" ++ commitish /\
    "1.2.3b4" = release ++ "b" ++ build /\
    Str.mem "-" release = false /\ Str.mem "-" build = false /\
    Str.mem "-" commitish = false /\ Str.mem "-" "1.2.3b4" = false.
Proof.
  apply (@version_development_fields
           (dev_world Py2 (Some ("1.2.3-4-gabc1234" ++ NL)))
           ("1.2.3-4-gabc1234" ++ NL) "1.2.3b4");
    reflexivity.
Defined.

(** ** What the header chop drops and keeps *)

Lemma chop_loop_spec (k : kind) (md : list string) :
  match chop_loop k md with
  | Ok kept =>
      exists dropped first rest,
        md = (dropped ++ first :: rest)%list /\
        forallb (is_header_line k) dropped = true /\
        is_header_line k first = false /\
        kept = first :: rest
  | Raise e => e = IndexError /\ forallb (is_header_line k) md = true
  end.
Proof.
  induction md as [|line md IH]; simpl; [now split|].
  fold (is_header_line k line).
  destruct (is_header_line k line) eqn:Hline.
  - destruct (chop_loop k md) as [kept|e].
    + destruct IH as (dropped & first & rest & -> & Hdropped & Hfirst & ->).
      exists (line :: dropped), first, rest. simpl.
      now rewrite Hline, Hdropped.
    + exact IH.
  - now exists [], line, md.
Qed.

(** X4: when the header chop returns, the lines of the input are a run of
    lines that are blank or open with the badge mark, then a first line that
    is neither, then the rest; what is returned is that first line and the
    rest, joined by newlines.  Nothing after the first kept line is dropped,
    blank lines and badges included.  Lines and blanks are those of the kind
    of string the input is. *)
Theorem chop_markdown_header_kept (k : kind) (md out : string) :
  chop_markdown_header k md = Ok out ->
  exists dropped first rest,
    splitlines k md = (dropped ++ first :: rest)%list /\
    forallb (is_header_line k) dropped = true /\
    is_header_line k first = false /\
    out = String.concat NL (first :: rest).
Proof.
  unfold chop_markdown_header.
  pose proof (chop_loop_spec k (splitlines k md)) as H.
  destruct (chop_loop k (splitlines k md)) as [kept|e]; [|discriminate].
  destruct H as (dropped & first & rest & Hmd & Hdropped & Hfirst & ->).
  intros [= <-]. now exists dropped, first, rest.
Qed.

Lemma chop_markdown_header_kept_witness :
  exists dropped first rest,
    splitlines TextString
      ("  " ++ NL ++ "[![ci]](x)" ++ String "012" "Title" ++ NL ++ NL
       ++ "[![late badge]]" ++ NL)
    = (dropped ++ first :: rest)%list /\
    forallb (is_header_line TextString) dropped = true /\
    is_header_line TextString first = false /\
    "Title" ++ NL ++ NL ++ "[![late badge]]"
    = String.concat NL (first :: rest).
Proof.
  apply (@chop_markdown_header_kept TextString
           ("  " ++ NL ++ "[![ci]](x)" ++ String "012" "Title" ++ NL ++ NL
            ++ "[![late badge]]" ++ NL)).
  reflexivity.
Defined.

(** X5: the header chop fails exactly when every line of the input is blank
    or opens with the badge mark, and IndexError is the only exception it
    raises.  Lines and blanks are those of the kind of string the input
    is. *)
Theorem chop_markdown_header_fails_iff (k : kind) (md : string) (e : exn) :
  chop_markdown_header k md = Raise e <->
  e = IndexError /\ forallb (is_header_line k) (splitlines k md) = true.
Proof.
  unfold chop_markdown_header.
  pose proof (chop_loop_spec k (splitlines k md)) as H.
  destruct (chop_loop k (splitlines k md)) as [kept|e'].
  - destruct H as (dropped & first & rest & Hmd & Hdropped & Hfirst & ->).
    split; [discriminate|]. intros [_ Hall].
    rewrite Hmd, forallb_app in Hall. simpl in Hall.
    rewrite Hfirst, andb_false_r in Hall. discriminate.
  - destruct H as [-> Hall]. split.
    + intros [= <-]. now split.
    + now intros [-> _].
Qed.

Lemma chop_markdown_header_fails_iff_witness :
  chop_markdown_header ByteString
    ("[![build]](a)" ++ NL ++ NL ++ "[![cover]](b)" ++ NL)
  = Raise IndexError /\
  chop_markdown_header TextString (String "031" "")
  = Raise IndexError /\
  chop_markdown_header ByteString (String "031" "")
  = Ok (String "031" "").
Proof.
  split; [|split].
  - apply chop_markdown_header_fails_iff. split; reflexivity.
  - apply chop_markdown_header_fails_iff. split; reflexivity.
  - reflexivity.
Defined.

Lemma is_line_end_LF (k : kind) (c : ascii) :
  is_line_end k c = false -> Ascii.eqb c LF = false.
Proof.
  intros H. destruct (Ascii.eqb_spec c LF) as [->|]; [|reflexivity].
  now destruct k.
Qed.

Lemma splitlines_bounded (k : kind) (n : nat) (s : string) :
  String.length s <= n ->
  Forall (fun line => Str.mem CR line = false /\ Str.mem LF line = false)
         (splitlines k s).
Proof.
  revert s. induction n as [|n IH]; intros s Hlen.
  - destruct s; [constructor | simpl in Hlen; lia].
  - destruct s as [|c s]; [constructor|]. simpl in Hlen. cbn [splitlines].
    destruct (Ascii.eqb c CR) eqn:Hcr.
    + destruct s as [|d s]; [now repeat constructor|].
      simpl in Hlen.
      destruct (Ascii.eqb d LF);
        (constructor; [now split | apply IH; simpl; lia]).
    + destruct (is_line_end k c) eqn:Hend.
      * constructor; [now split | apply IH; lia].
      * pose proof (is_line_end_LF k c Hend) as Hlf.
        assert (String.length s <= n) as Hs by lia.
        specialize (IH s Hs).
        destruct (splitlines k s) as [|line lines].
        -- repeat constructor; simpl; now rewrite ?Hcr, ?Hlf.
        -- inversion IH as [|? ? [Hl1 Hl2] Hrest]; subst.
           constructor; [|assumption].
           split; simpl; now rewrite ?Hcr, ?Hlf.
Qed.

Lemma concat_no_char (c : ascii) (sep : string) (lines : list string) :
  Str.mem c sep = false ->
  Forall (fun line => Str.mem c line = false) lines ->
  Str.mem c (String.concat sep lines) = false.
Proof.
  intros Hsep. induction 1 as [|line lines Hline Hlines IH]; [reflexivity|].
  destruct lines as [|line' lines']; [exact Hline|].
  change (String.concat sep (line :: line' :: lines'))
    with (line ++ sep ++ String.concat sep (line' :: lines')).
  repeat apply StrFacts.mem_append_false; assumption.
Qed.

Lemma count_char_absent (c : ascii) (s : string) :
  Str.mem c s = false -> count_char c s = 0.
Proof.
  induction s as [|d s IH]; simpl; [reflexivity|].
  intros H. apply orb_false_elim in H as [Hd Hs].
  now rewrite Hd, (IH Hs).
Qed.

Lemma count_char_append (c : ascii) (a b : string) :
  count_char c (a ++ b) = count_char c a + count_char c b.
Proof.
  induction a as [|d a IH]; simpl; [reflexivity|].
  rewrite IH. lia.
Qed.

(** Lines without a line feed, joined by line feeds: one line feed per
    line after the first. *)
Lemma concat_count_LF (first : string) (rest : list string) :
  Forall (fun line => Str.mem LF line = false) (first :: rest) ->
  count_char LF (String.concat NL (first :: rest)) = List.length rest.
Proof.
  revert first. induction rest as [|line rest IH]; intros first Hall.
  - inversion Hall as [|? ? Hfirst _]; subst.
    exact (count_char_absent LF first Hfirst).
  - inversion Hall as [|? ? Hfirst Hrest]; subst.
    change (String.concat NL (first :: line :: rest))
      with (first ++ NL ++ String.concat NL (line :: rest)).
    rewrite !count_char_append, (count_char_absent LF first Hfirst).
    rewrite (IH line Hrest). reflexivity.
Qed.

(** X6: in what the header chop returns, every line end between kept lines
    is one line feed, whatever it was in the input (a line feed, a carriage
    return, both, or another line end of a text string): the result holds
    no carriage return and as many line feeds as there are kept lines after
    the first, none of them at its end or inside a line. *)
Theorem chop_markdown_header_line_ends (k : kind) (md out : string) :
  chop_markdown_header k md = Ok out ->
  Str.mem CR out = false /\
  exists dropped first rest,
    splitlines k md = (dropped ++ first :: rest)%list /\
    Forall (fun line => Str.mem LF line = false) (first :: rest) /\
    out = String.concat NL (first :: rest) /\
    count_char LF out = List.length rest.
Proof.
  unfold chop_markdown_header.
  pose proof (chop_loop_spec k (splitlines k md)) as H.
  destruct (chop_loop k (splitlines k md)) as [kept|e]; [|discriminate].
  destruct H as (dropped & first & rest & Hmd & _ & _ & ->).
  intros Hout.
  assert (out = String.concat NL (first :: rest)) as -> by congruence.
  pose proof (@splitlines_bounded k (String.length md) md (le_n _)) as Hlines.
  rewrite Hmd in Hlines. apply Forall_app in Hlines as [_ Hkept].
  assert (Forall (fun line => Str.mem LF line = false) (first :: rest))
    as Hlf.
  { eapply Forall_impl; [|exact Hkept]. now intros line [_ Hline]. }
  split.
  - apply concat_no_char; [reflexivity|].
    eapply Forall_impl; [|exact Hkept]. now intros line [Hline _].
  - exists dropped, first, rest. repeat split; try assumption.
    exact (concat_count_LF Hlf).
Qed.

Lemma chop_markdown_header_line_ends_witness :
  Str.mem CR ("Title" ++ NL ++ "text" ++ NL ++ "end") = false /\
  exists dropped first rest,
    splitlines ByteString
      (String CR NL ++ "Title" ++ String CR NL ++ "text" ++ String CR ""
       ++ "end" ++ NL)
    = (dropped ++ first :: rest)%list /\
    Forall (fun line => Str.mem LF line = false) (first :: rest) /\
    "Title" ++ NL ++ "text" ++ NL ++ "end"
    = String.concat NL (first :: rest) /\
    count_char LF ("Title" ++ NL ++ "text" ++ NL ++ "end") = List.length rest.
Proof.
  apply (@chop_markdown_header_line_ends ByteString
           (String CR NL ++ "Title" ++ String CR NL ++ "text" ++ String CR ""
            ++ "end" ++ NL)).
  reflexivity.
Defined.

(** ** Link removal: sizes and simple links *)

Section MoreLinks.

Import Str StrFacts ReFacts.

Lemma match_at_two_groups_text (r1 r2 : regex) (o c : ascii) (s m : string)
      (caps : captures) :
  groupless r1 = true -> groupless r2 = true ->
  match_at (Cat (Lit "[") (Cat (Group 1 r1) (Cat (Lit "]")
           (Cat (Lit o) (Cat (Group 2 r2) (Lit c)))))) s = Some (m, caps) ->
  exists text name,
    m = "[" ++ text ++ "]" ++ String o (name ++ String c "") /\
    caps = [(2, name); (1, text)].
Proof.
  intros Hg1 Hg2. unfold match_at. cbn [run].
  destruct s as [|d s]; [discriminate|].
  destruct (Ascii.eqb_spec d "[") as [->|]; [|discriminate].
  intros H.
  apply run_sound in H as (text & s1 & caps1 & -> & Htext & H & Hc1).
  rewrite (Hc1 Hg1) in H.
  destruct s1 as [|d1 s1]; [discriminate|].
  destruct (Ascii.eqb_spec d1 "]") as [->|]; [|discriminate].
  destruct s1 as [|d2 s1]; [discriminate|].
  destruct (Ascii.eqb_spec d2 o) as [->|]; [|discriminate].
  apply run_sound in H as (name & s2 & caps2 & -> & Hname & H & Hc2).
  rewrite (Hc2 Hg2) in H.
  destruct s2 as [|d3 s2]; [discriminate|].
  destruct (Ascii.eqb_spec d3 c) as [->|]; [|discriminate].
  injection H as <- <-. now exists text, name.
Qed.

Lemma sub_from_length (r : regex) (repl : list titem) :
  (forall t m caps,
      match_at r t = Some (m, caps) ->
      String.length (expand repl caps) <= String.length m) ->
  forall s skip,
    skip <= String.length s ->
    String.length (sub_from r repl s skip) + skip <= String.length s.
Proof.
  intros Hrepl s. induction s as [|c s IH]; intros skip Hskip.
  - simpl in *. destruct (match_at r "") as [[m caps]|] eqn:Hm; [|simpl; lia].
    pose proof (Hrepl _ _ _ Hm) as Hlen.
    apply match_at_sound in Hm as (s' & Hs & _).
    rewrite (append_eq_nil _ _ Hs) in Hlen. simpl in Hlen. lia.
  - cbn [sub_from]. destruct skip as [|n].
    + destruct (match_at r (String c s)) as [[m caps]|] eqn:Hm.
      * pose proof (Hrepl _ _ _ Hm) as Hlen.
        apply match_at_sound in Hm as (s' & Hs & _).
        apply (f_equal String.length) in Hs.
        rewrite !length_append in *. simpl in Hs.
        destruct (String.length m) as [|n] eqn:Hm'.
        -- specialize (IH 0 (Nat.le_0_l _)). simpl. lia.
        -- assert (n <= String.length s) as Hn by lia.
           specialize (IH n Hn). simpl. lia.
      * specialize (IH 0 (Nat.le_0_l _)). simpl. lia.
    + simpl in Hskip. assert (n <= String.length s) as Hn by lia.
      specialize (IH n Hn). simpl. lia.
Qed.

Lemma group1_shorter (o c : ascii) (t m : string) (caps : captures) :
  match_at (Cat (Lit "[") (Cat (Group 1 (Plus bracket_body)) (Cat (Lit "]")
           (Cat (Lit o) (Cat (Group 2 (Star bracket_body)) (Lit c)))))) t
  = Some (m, caps) ->
  String.length (expand group1 caps) <= String.length m.
Proof.
  intros H.
  apply match_at_two_groups_text in H as (text & name & -> & ->);
    try reflexivity.
  cbn [expand group1 group Nat.eqb].
  rewrite !length_append. simpl. lia.
Qed.

Lemma remove_markdown_links_bound (md : string) :
  String.length (remove_markdown_links md) <= String.length md.
Proof.
  unfold remove_markdown_links, sub.
  pose proof (@sub_from_length named_link_re group1
                (@group1_shorter "[" "]") md 0 (Nat.le_0_l _)) as H1.
  pose proof (@sub_from_length url_link_re group1
                (@group1_shorter "(" ")")
                (sub_from named_link_re group1 md 0) 0 (Nat.le_0_l _)) as H2.
  lia.
Qed.

(** X7: link removal never lengthens its input. *)
Theorem remove_markdown_links_length (md : string) :
  String.length (remove_markdown_links md) <= String.length md.
Proof. exact (remove_markdown_links_bound md). Qed.

(** X8: a text in which no closing bracket is directly followed by an
    opening bracket or an opening parenthesis is returned unchanged. *)
Theorem remove_markdown_links_no_bracket_pair (md : string) :
  has_pair "]" "[" md = false -> has_pair "]" "(" md = false ->
  remove_markdown_links md = md.
Proof.
  intros Hnamed Hurl. unfold remove_markdown_links.
  rewrite (sub_named_no_pair _ Hnamed). exact (sub_url_no_pair _ Hurl).
Qed.

Lemma remove_markdown_links_no_bracket_pair_witness :
  remove_markdown_links "items[0] = f(x[1]) [and] (so) on"
  = "items[0] = f(x[1]) [and] (so) on".
Proof. apply remove_markdown_links_no_bracket_pair; reflexivity. Defined.

Lemma loop_end (fuel : nat) (acc : string) (caps : captures) (k : cont) :
  loop (run bracket_body) fuel acc "" caps k = k acc "" caps.
Proof. destruct fuel; reflexivity. Qed.

(** The url group runs to the end of the subject and gives back the closing
    parenthesis. *)
Lemma loop_gives_back (url : string) :
  mem "]" url = false ->
  forall fuel acc caps k res,
    String.length url < fuel ->
    (forall a caps', k a "" caps' = None) ->
    k (acc ++ url) ")" caps = Some res ->
    loop (run bracket_body) fuel acc (url ++ ")") caps k = Some res.
Proof.
  induction url as [|c url IH];
    intros Hmem fuel acc caps k res Hfuel Hend Hk.
  - rewrite append_nil_r in Hk.
    destruct fuel as [|fuel]; [simpl in Hfuel; lia|].
    cbn [loop append].
    assert (run bracket_body ")" caps
              (fun c s' caps' =>
                 match c with
                 | "" => None
                 | String _ _ => loop (run bracket_body) fuel (acc ++ c) s' caps' k
                 end) = None) as ->; [|exact Hk].
    simpl. now rewrite loop_end, Hend.
  - simpl in Hmem. apply orb_false_elim in Hmem as [Hc Hmem].
    destruct fuel as [|fuel]; [simpl in Hfuel; lia|].
    simpl in Hfuel. cbn [loop append].
    erewrite bracket_body_char; [reflexivity | exact Hc |].
    cbn beta iota. apply (IH Hmem); [lia | exact Hend |].
    now rewrite append_assoc.
Qed.

Lemma match_at_named_simple (text name rest : string) :
  text <> "" -> mem "]" text = false -> mem "]" name = false ->
  match_at named_link_re ("[" ++ text ++ "][" ++ name ++ "]" ++ rest)
  = Some ("[" ++ text ++ "][" ++ name ++ "]", [(2, name); (1, text)]).
Proof.
  intros Hne Htext Hname. destruct text as [|c text]; [now elim Hne|].
  simpl in Htext. apply orb_false_elim in Htext as [Hc Htext].
  unfold match_at, named_link_re.
  cbn [run append Ascii.eqb Bool.eqb].
  erewrite bracket_body_char; [reflexivity | exact Hc |].
  cbn beta. apply (loop_greedy text Htext).
  - rewrite length_append. lia.
  - cbn [run append Ascii.eqb Bool.eqb].
    apply (loop_greedy name Hname).
    + rewrite length_append. lia.
    + reflexivity.
Qed.

Lemma match_at_url_simple (text url : string) :
  text <> "" -> mem "]" text = false -> mem "]" url = false ->
  match_at url_link_re ("[" ++ text ++ "](" ++ url ++ ")")
  = Some ("[" ++ text ++ "](" ++ url ++ ")", [(2, url); (1, text)]).
Proof.
  intros Hne Htext Hurl. destruct text as [|c text]; [now elim Hne|].
  simpl in Htext. apply orb_false_elim in Htext as [Hc Htext].
  unfold match_at, url_link_re.
  cbn [run append Ascii.eqb Bool.eqb].
  erewrite bracket_body_char; [reflexivity | exact Hc |].
  cbn beta. apply (loop_greedy text Htext).
  - rewrite length_append. lia.
  - cbn [run append Ascii.eqb Bool.eqb].
    apply (loop_gives_back url Hurl).
    + rewrite length_append. simpl. lia.
    + reflexivity.
    + reflexivity.
Qed.

Lemma sub_whole_match (r : regex) (s text : string) (caps : captures) :
  s <> "" ->
  match_at r s = Some (s, caps) -> match_at r "" = None ->
  group 1 caps = text ->
  sub r group1 s = text.
Proof.
  intros Hne Hm Hnil Hgroup. unfold sub.
  destruct s as [|c s]; [now elim Hne|].
  cbn [sub_from]. rewrite Hm.
  cbn [String.length expand group1]. rewrite Hgroup.
  rewrite <- (append_nil_r s) at 1. rewrite sub_from_skip.
  cbn [sub_from]. rewrite Hnil. now rewrite !append_nil_r.
Qed.

Lemma has_pair_first (a b : ascii) (x y : string) :
  mem a x = false ->
  has_pair a b (x ++ String a y) = starts_with b y || has_pair a b y.
Proof.
  induction x as [|c x IH]; simpl.
  - now rewrite Ascii.eqb_refl.
  - intros H. apply orb_false_elim in H as [Hc Hx].
    now rewrite Hc, (IH Hx).
Qed.

(** X9: a text that is one link is rewritten to the link text: for every
    non-empty text, and every name and url, none of them holding a closing
    bracket, the text in brackets followed by the name in brackets, or by
    the url in parentheses, becomes the text alone. *)
Theorem remove_markdown_links_simple (text name url : string) :
  text <> "" -> mem "]" text = false ->
  mem "]" name = false -> mem "]" url = false ->
  remove_markdown_links ("[" ++ text ++ "][" ++ name ++ "]") = text /\
  remove_markdown_links ("[" ++ text ++ "](" ++ url ++ ")") = text.
Proof.
  intros Hne Htext Hname Hurl. unfold remove_markdown_links. split.
  - rewrite (@sub_whole_match named_link_re _ text [(2, name); (1, text)]).
    + apply sub_url_no_pair. now apply has_pair_absent.
    + discriminate.
    + pose proof (@match_at_named_simple text name "" Hne Htext Hname) as H.
      now rewrite !append_nil_r in H.
    + reflexivity.
    + reflexivity.
  - rewrite sub_named_no_pair.
    + apply (@sub_whole_match url_link_re _ text [(2, url); (1, text)]).
      * discriminate.
      * exact (@match_at_url_simple text url Hne Htext Hurl).
      * reflexivity.
      * reflexivity.
    + change ("[" ++ text ++ "](" ++ url ++ ")")
        with (String "[" (text ++ String "]" (String "(" (url ++ ")")))).
      cbn [has_pair Ascii.eqb Bool.eqb andb orb].
      rewrite (@has_pair_first "]" "[" text _ Htext). cbn [starts_with Ascii.eqb Bool.eqb orb].
      apply has_pair_absent. cbn [mem Ascii.eqb Bool.eqb orb].
      now apply mem_append_false.
Qed.

Lemma remove_markdown_links_simple_witness :
  remove_markdown_links "[the docs][1]" = "the docs" /\
  remove_markdown_links "[the docs](http://x.org/a(b)#c)" = "the docs".
Proof.
  apply (@remove_markdown_links_simple "the docs" "1" "http://x.org/a(b)#c");
    [discriminate | reflexivity | reflexivity | reflexivity].
Defined.

End MoreLinks.

(** ** Regenerating README.rst *)

Lemma prefix_append (a b : string) : prefix a (a ++ b) = true.
Proof.
  induction a as [|c a IH]; simpl; [now destruct b|].
  destruct (ascii_dec c c) as [_|Hne]; [exact IH | now elim Hne].
Qed.

(** The world after [fs.update_file "README.rst" rst]. *)
Lemma generate_rst_cases (w : world) :
  match generate_rst w with
  | (Ok rst, w') =>
      exists readme changes md changes_md to_rst rst1 rst2,
        files w "README.md" = Some readme /\
        files w "CHANGELOG.md" = Some changes /\
        pypi_sanitize_markdown (str_kind (python w)) readme = Ok md /\
        pypi_sanitize_markdown (str_kind (python w)) changes
        = Ok changes_md /\
        pandoc w = Some to_rst /\
        to_rst md = Ok rst1 /\ to_rst changes_md = Ok rst2 /\
        rst = notice ++ rst1 ++ NL ++ rst2 /\
        w' = World (python w) (environ w) (popen w) (isdir w) (islink w)
                   (fun p => if p =? "README.rst" then Some rst
                             else files w p)
                   (pandoc w) (stdout w) (warnings w)
  | (Raise _, w') => w' = w
  end.
Proof.
  unfold generate_rst, markdown2rst.
  unfold bind, fs.read_file, on_str, lift, ask, raise, ret, create_rst,
    fs.update_file, write_files.
  cbn beta.
  destruct (files w "README.md") as [readme|] eqn:Hreadme;
    cbn beta iota; [|reflexivity].
  destruct (pypi_sanitize_markdown (str_kind (python w)) readme)
    as [md|] eqn:Hmd;
    cbn beta iota; [|reflexivity].
  destruct (pandoc w) as [to_rst|] eqn:Hpandoc;
    cbn beta iota; [|reflexivity].
  destruct (to_rst md) as [rst1|] eqn:H1;
    cbn beta iota; [|reflexivity].
  destruct (files w "CHANGELOG.md") as [changes|] eqn:Hchanges;
    cbn beta iota; [|reflexivity].
  destruct (pypi_sanitize_markdown (str_kind (python w)) changes)
    as [changes_md|] eqn:Hc;
    cbn beta iota; [|reflexivity].
  rewrite Hpandoc.
  destruct (to_rst changes_md) as [rst2|] eqn:H2;
    cbn beta iota; [|reflexivity].
  exists readme, changes, md, changes_md, to_rst, rst1, rst2.
  assert (pypi_prepare_rst rst1 ++ NL ++ rst2 = notice ++ rst1 ++ NL ++ rst2)
    as Hrst.
  { unfold pypi_prepare_rst. now rewrite !StrFacts.append_assoc. }
  rewrite Hrst. repeat split; try assumption; try reflexivity.
  now rewrite Hpandoc.
Qed.

(** X10: when README.md and CHANGELOG.md are there, both pass the
    sanitizer and pandoc renders both, generate_rst returns the notice, the
    rendering of the sanitized README, a newline and the rendering of the
    sanitized CHANGELOG. *)
Theorem generate_rst_returns (w : world) (readme changes md changes_md : string)
        (to_rst : string -> result string) (rst1 rst2 : string) :
  files w "README.md" = Some readme ->
  files w "CHANGELOG.md" = Some changes ->
  pypi_sanitize_markdown (str_kind (python w)) readme = Ok md ->
  pypi_sanitize_markdown (str_kind (python w)) changes = Ok changes_md ->
  pandoc w = Some to_rst ->
  to_rst md = Ok rst1 -> to_rst changes_md = Ok rst2 ->
  fst (generate_rst w) = Ok (notice ++ rst1 ++ NL ++ rst2).
Proof.
  intros Hreadme Hchanges Hmd Hcmd Hpandoc H1 H2.
  unfold generate_rst, markdown2rst.
  unfold bind, fs.read_file, on_str, lift, ask, raise, ret, create_rst,
    fs.update_file, write_files.
  cbn beta. rewrite Hreadme. cbn beta iota. rewrite Hmd. cbn beta iota.
  rewrite Hpandoc. cbn beta iota. rewrite H1. cbn beta iota.
  rewrite Hchanges. cbn beta iota. rewrite Hcmd. cbn beta iota.
  rewrite Hpandoc. cbn beta iota. rewrite H2. cbn beta iota. cbn [fst].
  unfold pypi_prepare_rst. now rewrite !StrFacts.append_assoc.
Qed.

Lemma generate_rst_returns_witness :
  fst (generate_rst converting_world)
  = Ok (notice ++ "rst: # readme doc" ++ NL ++ "rst: # changes").
Proof.
  apply (@generate_rst_returns converting_world
           ("[![badge]]" ++ NL ++ "# readme [doc][ref]" ++ NL) "# changes"
           "# readme doc" "# changes" (fun md => Ok ("rst: " ++ md)));
    reflexivity.
Defined.

(** X11: when generate_rst returns a text, README.rst holds that text
    afterwards and reading it back gives the text; every other file, the
    output and the warnings are as before; the text opens with the
    notice. *)
Theorem generate_rst_writes (w : world) (rst : string) :
  fst (generate_rst w) = Ok rst ->
  fst (fs.read_file "README.rst" (snd (generate_rst w))) = Ok rst /\
  (forall path, path <> "README.rst" ->
                files (snd (generate_rst w)) path = files w path) /\
  stdout (snd (generate_rst w)) = stdout w /\
  warnings (snd (generate_rst w)) = warnings w /\
  prefix notice rst = true.
Proof.
  pose proof (generate_rst_cases w) as H.
  destruct (generate_rst w) as [[rst'|e] w']; [|discriminate].
  destruct H as (readme & changes & md & changes_md & to_rst & rst1 & rst2
                 & _ & _ & _ & _ & _ & _ & _ & Hrst & ->).
  cbn [fst snd]. intros [= <-].
  split; [|split; [|split; [|split]]]; try reflexivity.
  - intros path Hpath. cbn [files].
    now destruct (String.eqb_spec path "README.rst").
  - rewrite Hrst. apply prefix_append.
Qed.

Lemma generate_rst_writes_witness :
  fst (fs.read_file "README.rst" (snd (generate_rst converting_world)))
  = Ok (notice ++ "rst: # readme doc" ++ NL ++ "rst: # changes") /\
  (forall path, path <> "README.rst" ->
                files (snd (generate_rst converting_world)) path
                = files converting_world path) /\
  stdout (snd (generate_rst converting_world)) = stdout converting_world /\
  warnings (snd (generate_rst converting_world))
  = warnings converting_world /\
  prefix notice (notice ++ "rst: # readme doc" ++ NL ++ "rst: # changes")
  = true.
Proof. apply generate_rst_writes. reflexivity. Defined.

(** X12: when generate_rst raises, the world is as it was: README.rst is
    neither written, nor changed, nor removed. *)
Theorem generate_rst_failure_writes_nothing (w : world) (e : exn) :
  fst (generate_rst w) = Raise e -> snd (generate_rst w) = w.
Proof.
  pose proof (generate_rst_cases w) as H.
  destruct (generate_rst w) as [[rst|e'] w']; [discriminate|].
  now intros _.
Qed.

Lemma generate_rst_failure_writes_nothing_witness :
  snd (generate_rst tooling_world) = tooling_world.
Proof.
  apply (@generate_rst_failure_writes_nothing tooling_world ImportError).
  reflexivity.
Defined.

(** ** The tiers of get_rst *)

Lemma get_rst_tier1 (w : world) :
  isdir w "pyandoc/pandoc" && islink w "pandoc" = true ->
  get_rst w
  = generate_rst
      (snd (print "Generating README.rst from README.md and CHANGELOG.md" w)).
Proof.
  intros Htier. unfold get_rst, get_rst_in.
  unfold bind at 1 2. unfold ask at 1 2. rewrite Htier.
  unfold bind at 1. unfold print at 1. cbn [snd print].
  now destruct (generate_rst _) as [[rst|e] w'].
Qed.

Lemma get_rst_other_tiers (w : world) :
  isdir w "pyandoc/pandoc" && islink w "pandoc" = false ->
  fst (get_rst w) = Raise (NameError "read_file") /\
  files (snd (get_rst w)) = files w /\
  warnings (snd (get_rst w))
  = (warnings w ++ if isfile w "README.rst" then []
                   else ["No README.rst found!"])%list.
Proof.
  intros Htier. unfold get_rst, get_rst_in.
  unfold bind, ask. cbn beta. rewrite Htier. cbn beta iota.
  destruct (isfile w "README.rst"); cbn;
    rewrite ?app_nil_r; repeat split.
Qed.

(** X13: without the tooling directory and link, get_rst returns nothing:
    with or without a README.rst it raises NameError at the call of the
    unbound name read_file, leaves every file as it was, and has warned
    exactly when there is no README.rst. *)
Theorem get_rst_without_tooling (w : world) :
  isdir w "pyandoc/pandoc" && islink w "pandoc" = false ->
  fst (get_rst w) = Raise (NameError "read_file") /\
  files (snd (get_rst w)) = files w /\
  warnings (snd (get_rst w))
  = (warnings w ++ if isfile w "README.rst" then []
                   else ["No README.rst found!"])%list.
Proof. exact (get_rst_other_tiers w). Qed.

Lemma get_rst_without_tooling_witness :
  isfile prebuilt_world "README.rst" = true /\
  fst (get_rst prebuilt_world) = Raise (NameError "read_file") /\
  files (snd (get_rst prebuilt_world)) = files prebuilt_world /\
  warnings (snd (get_rst prebuilt_world)) = [].
Proof.
  split; [reflexivity|].
  apply (@get_rst_without_tooling prebuilt_world). reflexivity.
Defined.

Lemma get_rst_ok_cases (w : world) (rst : string) :
  fst (get_rst w) = Ok rst ->
  isdir w "pyandoc/pandoc" && islink w "pandoc" = true /\
  files (snd (get_rst w)) "README.rst" = Some rst /\
  warnings (snd (get_rst w)) = warnings w /\
  stdout (snd (get_rst w))
  = (stdout w
     ++ ["Generating README.rst from README.md and CHANGELOG.md"])%list.
Proof.
  destruct (isdir w "pyandoc/pandoc" && islink w "pandoc") eqn:Htier.
  - rewrite (get_rst_tier1 w Htier).
    set (w1 := snd (print _ w)).
    pose proof (generate_rst_cases w1) as H.
    destruct (generate_rst w1) as [[rst'|e] w']; [|discriminate].
    destruct H as (readme & changes & md & changes_md & to_rst & rst1 & rst2
                   & _ & _ & _ & _ & _ & _ & _ & _ & ->).
    cbn [fst snd]. intros [= <-].
    split; [reflexivity|]. split; [|split; reflexivity].
    cbn [files]. now rewrite String.eqb_refl.
  - destruct (get_rst_other_tiers w Htier) as [Hfst _].
    rewrite Hfst. discriminate.
Qed.

(** X14: get_rst returns a text only by regenerating it: the tooling
    directory and link are there, README.rst holds the returned text
    afterwards, no warning was issued, and the one line printed announces
    the regeneration. *)
Theorem get_rst_returns_regenerated (w : world) (rst : string) :
  fst (get_rst w) = Ok rst ->
  isdir w "pyandoc/pandoc" && islink w "pandoc" = true /\
  files (snd (get_rst w)) "README.rst" = Some rst /\
  warnings (snd (get_rst w)) = warnings w /\
  stdout (snd (get_rst w))
  = (stdout w
     ++ ["Generating README.rst from README.md and CHANGELOG.md"])%list.
Proof. exact (@get_rst_ok_cases w rst). Qed.

Lemma get_rst_returns_regenerated_witness :
  isdir converting_world "pyandoc/pandoc"
  && islink converting_world "pandoc" = true /\
  files (snd (get_rst converting_world)) "README.rst"
  = Some (notice ++ "rst: # readme doc" ++ NL ++ "rst: # changes") /\
  warnings (snd (get_rst converting_world)) = warnings converting_world /\
  stdout (snd (get_rst converting_world))
  = (stdout converting_world
     ++ ["Generating README.rst from README.md and CHANGELOG.md"])%list.
Proof. apply get_rst_returns_regenerated. reflexivity. Defined.

(** ** The module body *)

Lemma development_version_number_world (w : world) :
  snd (development_version_number w) = w.
Proof.
  unfold development_version_number, bind, communicate, ask.
  destruct (popen w ["git"; "describe"]) as [out|]; [|reflexivity].
  destruct (python w); [|reflexivity]. cbn [str_kind].
  destruct (split "-" (strip ByteString out)) as [|a [|b [|c [|d l]]]];
    reflexivity.
Qed.

Lemma setup_py_version (w : world) :
  setup_py w =
    match version w with
    | (Ok v, _) =>
        (print ("Version: " ++ v) ;;;
         (if is_dev_version w then
            print "This is a DEV version" ;;;
            print ("Target: " ++ target_version ++ NL)
          else
            print ("!!!>>> This is a RELEASE version <<<!!!" ++ NL)) ;;;
         long_description <- get_rst ;;
         ret (SetupArgs v long_description
                ("https://github.com/chaimleib/intervaltree/tarball/" ++ v)))
          w
    | (Raise e, _) => (Raise e, w)
    end.
Proof.
  unfold setup_py, version, bind, ask. cbn beta iota.
  destruct (is_dev_version w); [|reflexivity].
  pose proof (development_version_number_world w) as Hw.
  destruct (development_version_number w) as [[v|e] w']; simpl in Hw;
    now subst.
Qed.

(** X15: when version resolution raises, the module stops there with the
    same exception: nothing is printed, no warning is issued, no file is
    touched, and get_rst is not run. *)
Theorem setup_py_version_failure (w : world) (e : exn) :
  fst (version w) = Raise e -> setup_py w = (Raise e, w).
Proof.
  intros H. rewrite setup_py_version.
  destruct (version w) as [[v|e'] w']; [discriminate|].
  simpl in H. now injection H as ->.
Qed.

Lemma setup_py_version_failure_witness :
  setup_py (dev_world Py3 (Some "1.2.3"))
  = (Raise TypeError, dev_world Py3 (Some "1.2.3")) /\
  setup_py (dev_world Py2 (Some "1.2.3"))
  = (Raise ValueError, dev_world Py2 (Some "1.2.3")) /\
  setup_py (dev_world Py3 None) = (Raise OSError, dev_world Py3 None).
Proof.
  split; [|split]; apply setup_py_version_failure; reflexivity.
Defined.

(** X16: when the module body runs through, the version passed to setup is
    the resolved one, the download url is the tarball address followed by
    that version, the long description is what README.rst now holds, and no
    warning was issued. *)
Theorem setup_py_arguments (w : world) (args : setup_args) :
  fst (setup_py w) = Ok args ->
  fst (version w) = Ok (arg_version args) /\
  arg_download_url args
  = "https://github.com/chaimleib/intervaltree/tarball/" ++ arg_version args /\
  files (snd (setup_py w)) "README.rst" = Some (arg_long_description args) /\
  warnings (snd (setup_py w)) = warnings w /\
  stdout (snd (setup_py w))
  = (stdout w ++ [("Version: " ++ arg_version args)%string]
     ++ (if is_dev_version w
         then ["This is a DEV version";
               ("Target: " ++ target_version ++ NL)%string]
         else [("!!!>>> This is a RELEASE version <<<!!!" ++ NL)%string])
     ++ ["Generating README.rst from README.md and CHANGELOG.md"])%list.
Proof.
  rewrite setup_py_version.
  destruct (version w) as [[v|e] w0]; [|discriminate].
  destruct (is_dev_version w); unfold bind, print, ret; cbn beta iota.
  all: match goal with
       | |- context [get_rst ?w1] =>
           pose proof (@get_rst_ok_cases w1) as H;
           destruct (get_rst w1) as [[rst|e] w2]; [|discriminate]
       end.
  all: cbn [fst snd]; intros [= <-];
    destruct (H rst eq_refl) as (_ & Hfiles & Hwarn & Hout);
    cbn [fst snd arg_version arg_download_url arg_long_description
         warnings stdout] in *;
    repeat split; try assumption;
    rewrite Hout, <- !app_assoc; reflexivity.
Qed.

Lemma setup_py_arguments_witness :
  fst (version converting_world) = Ok "2.1.1" /\
  "https://github.com/chaimleib/intervaltree/tarball/2.1.1"
  = "https://github.com/chaimleib/intervaltree/tarball/" ++ "2.1.1" /\
  files (snd (setup_py converting_world)) "README.rst"
  = Some (notice ++ "rst: # readme doc" ++ NL ++ "rst: # changes") /\
  warnings (snd (setup_py converting_world)) = warnings converting_world /\
  stdout (snd (setup_py converting_world))
  = ["Version: 2.1.1"; "!!!>>> This is a RELEASE version <<<!!!" ++ NL;
     "Generating README.rst from README.md and CHANGELOG.md"].
Proof.
  apply (@setup_py_arguments converting_world
           (SetupArgs "2.1.1"
              (notice ++ "rst: # readme doc" ++ NL ++ "rst: # changes")
              "https://github.com/chaimleib/intervaltree/tarball/2.1.1")).
  reflexivity.
Defined.

(** ** What the sanitizers cannot add *)

Section Sanitize.

Import Str StrFacts ReFacts.

Lemma mem_append (c : ascii) (a b : string) :
  mem c (a ++ b) = mem c a || mem c b.
Proof.
  induction a as [|x a IH]; simpl; [reflexivity|].
  now rewrite IH, orb_assoc.
Qed.

Lemma sub_from_mem (c : ascii) (r : regex) (repl : list titem) :
  (forall t m caps,
      match_at r t = Some (m, caps) ->
      mem c (expand repl caps) = true -> mem c m = true) ->
  forall s skip, mem c (sub_from r repl s skip) = true -> mem c s = true.
Proof.
  intros Hrepl s. induction s as [|d s IH]; intros skip.
  - simpl. destruct (match_at r "") as [[m caps]|] eqn:Hm; [|discriminate].
    intros Hc. pose proof (Hrepl _ _ _ Hm Hc) as Hin.
    apply match_at_sound in Hm as (s' & Hs & _).
    now rewrite (append_eq_nil _ _ Hs) in Hin.
  - cbn [sub_from]. destruct skip as [|n].
    + destruct (match_at r (String d s)) as [[m caps]|] eqn:Hm.
      * rewrite mem_append. intros Hc. apply orb_prop in Hc as [Hc|Hc].
        -- pose proof (Hrepl _ _ _ Hm Hc) as Hin.
           apply match_at_sound in Hm as (s' & -> & _).
           now rewrite mem_append, Hin.
        -- destruct (String.length m) as [|n].
           ++ simpl in *. apply orb_prop in Hc as [->|Hc]; [reflexivity|].
              rewrite (IH 0 Hc). apply orb_true_r.
           ++ simpl. rewrite (IH n Hc). apply orb_true_r.
      * simpl. intros Hc. apply orb_prop in Hc as [->|Hc]; [reflexivity|].
        rewrite (IH 0 Hc). apply orb_true_r.
    + intros Hc. simpl. rewrite (IH n Hc). apply orb_true_r.
Qed.

Lemma group1_chars (x o c : ascii) (t m : string) (caps : captures) :
  match_at (Cat (Lit "[") (Cat (Group 1 (Plus bracket_body)) (Cat (Lit "]")
           (Cat (Lit o) (Cat (Group 2 (Star bracket_body)) (Lit c)))))) t
  = Some (m, caps) ->
  mem x (expand group1 caps) = true -> mem x m = true.
Proof.
  intros H.
  apply match_at_two_groups_text in H as (text & name & -> & ->);
    try reflexivity.
  cbn [expand group1 group Nat.eqb]. rewrite append_nil_r. intros Hx.
  change ("[" ++ text ++ "]" ++ String o (name ++ String c ""))
    with (String "[" (text ++ String "]" (String o (name ++ String c "")))).
  cbn [mem]. rewrite mem_append, Hx. apply orb_true_r.
Qed.

(** X17: link removal adds no character: every character of the result
    occurs in the input. *)
Theorem remove_markdown_links_no_new_char (c : ascii) (md : string) :
  mem c (remove_markdown_links md) = true -> mem c md = true.
Proof.
  unfold remove_markdown_links, sub. intros H.
  apply (@sub_from_mem c url_link_re group1 (@group1_chars c "(" ")")) in H.
  exact (@sub_from_mem c named_link_re group1 (@group1_chars c "[" "]")
                       md 0 H).
Qed.

Lemma remove_markdown_links_no_new_char_witness :
  mem "l" "[hello][world]" = true.
Proof.
  apply (@remove_markdown_links_no_new_char "l" "[hello][world]").
  reflexivity.
Defined.

Lemma splitlines_join_length (k : kind) (n : nat) (s : string) :
  String.length s <= n ->
  String.length (String.concat NL (splitlines k s)) <= String.length s.
Proof.
  revert s. induction n as [|n IH]; intros s Hlen.
  - destruct s; [reflexivity | simpl in Hlen; lia].
  - destruct s as [|c s]; [reflexivity|]. simpl in Hlen.
    cbn [splitlines].
    destruct (Ascii.eqb c CR).
    + destruct s as [|d s]; [simpl; lia|]. simpl in Hlen.
      destruct (Ascii.eqb d LF).
      * assert (String.length s <= n) as Hs by lia. specialize (IH s Hs).
        destruct (splitlines k s) as [|line lines]; [simpl; lia|].
        change (String.concat NL ("" :: line :: lines))
          with (String LF (String.concat NL (line :: lines))).
        simpl in *. lia.
      * assert (String.length (String d s) <= n) as Hs by (simpl; lia).
        specialize (IH _ Hs).
        destruct (splitlines k (String d s)) as [|line lines];
          [simpl; lia|].
        change (String.concat NL ("" :: line :: lines))
          with (String LF (String.concat NL (line :: lines))).
        simpl in *. lia.
    + assert (String.length s <= n) as Hs by lia. specialize (IH s Hs).
      destruct (is_line_end k c).
      * destruct (splitlines k s) as [|line lines]; [simpl; lia|].
        change (String.concat NL ("" :: line :: lines))
          with (String LF (String.concat NL (line :: lines))).
        simpl in *. lia.
      * destruct (splitlines k s) as [|line lines]; [simpl; lia|].
        rewrite concat_cons_char. simpl in *. lia.
Qed.

Lemma concat_suffix_length (dropped kept : list string) :
  String.length (String.concat NL kept)
  <= String.length (String.concat NL (dropped ++ kept)).
Proof.
  induction dropped as [|line dropped IH]; [simpl; lia|].
  cbn [app]. destruct (dropped ++ kept)%list as [|line' lines] eqn:Hall.
  - apply app_eq_nil in Hall as [_ ->]. simpl. lia.
  - change (String.concat NL (line :: line' :: lines))
      with (line ++ NL ++ String.concat NL (line' :: lines)).
    rewrite !length_append. lia.
Qed.

(** X18: what the sanitizer returns is the link removal of the header chop;
    it is no longer than the input and holds no carriage return.  The
    sanitizer raises exactly when the header chop does. *)
Theorem pypi_sanitize_markdown_output (k : kind) (md : string) :
  (forall out,
      pypi_sanitize_markdown k md = Ok out ->
      (exists chopped,
          chop_markdown_header k md = Ok chopped /\
          out = remove_markdown_links chopped) /\
      String.length out <= String.length md /\
      mem CR out = false) /\
  (forall e,
      pypi_sanitize_markdown k md = Raise e <->
      chop_markdown_header k md = Raise e).
Proof.
  unfold pypi_sanitize_markdown. split.
  - intros out.
    destruct (chop_markdown_header k md) as [chopped|e] eqn:Hchop;
      [|discriminate].
    intros [= <-]. split; [now exists chopped|].
    unfold chop_markdown_header in Hchop.
    pose proof (chop_loop_spec k (splitlines k md)) as H.
    destruct (chop_loop k (splitlines k md)) as [kept|e]; [|discriminate].
    destruct H as (dropped & first & rest & Hmd & _ & _ & ->).
    assert (chopped = String.concat NL (first :: rest)) as -> by congruence.
    split.
    + pose proof (remove_markdown_links_bound
                    (String.concat NL (first :: rest))) as Hlinks.
      pose proof (concat_suffix_length dropped (first :: rest)) as Hsuffix.
      rewrite <- Hmd in Hsuffix.
      pose proof (@splitlines_join_length k (String.length md) md (le_n _)).
      lia.
    + destruct (mem CR (remove_markdown_links _)) eqn:Hcr; [|reflexivity].
      unfold remove_markdown_links, sub in Hcr.
      apply (@sub_from_mem CR url_link_re group1 (@group1_chars CR "(" ")"))
        in Hcr.
      apply (@sub_from_mem CR named_link_re group1 (@group1_chars CR "[" "]"))
        in Hcr.
      assert (mem CR (String.concat NL (first :: rest)) = false) as Hno;
        [|congruence].
      apply concat_no_char; [reflexivity|].
      pose proof (@splitlines_bounded k (String.length md) md (le_n _))
        as Hlines.
      rewrite Hmd in Hlines. apply Forall_app in Hlines as [_ Hkept].
      eapply Forall_impl; [|exact Hkept]. now intros line [Hline _].
  - intros e. destruct (chop_markdown_header k md) as [chopped|e'].
    + split; discriminate.
    + reflexivity.
Qed.

Lemma pypi_sanitize_markdown_output_witness :
  (exists chopped,
      chop_markdown_header TextString
        ("[![b]](c)" ++ String CR NL ++ "See [docs](http://d)" ++ String CR NL)
      = Ok chopped /\
      "See docs" = remove_markdown_links chopped) /\
  String.length "See docs"
  <= String.length
       ("[![b]](c)" ++ String CR NL ++ "See [docs](http://d)" ++ String CR NL)
  /\ mem CR "See docs" = false.
Proof.
  apply (proj1 (pypi_sanitize_markdown_output TextString
                  ("[![b]](c)" ++ String CR NL ++ "See [docs](http://d)"
                   ++ String CR NL))).
  reflexivity.
Defined.

End Sanitize.
